(** * A statistics lesson page: mean, median, mode and keyword feedback

    Shallow embedding of the two entry points of the repository:
    [streamlit_app.py], the page that judges answers with keyword rules
    only, and [app.py], the same page with a remote judge in front of the
    keyword rules.  Both compute the statistics of two fixed datasets,
    judge a submitted answer or example, record what was submitted in the
    session state and display a progress count.

    Conventions.
    - A Python [int] is a [Z]; [len] is a [nat].
    - A Python [str] is the list of its Unicode code points ([list N]).
      String literals of the source are written [py "..."]: the source
      file is UTF-8, and [py] decodes the bytes of the literal.
    - A [float] ([np.float64]) is an exact rational [Q].  On the two
      scenario datasets every intermediate value (a sum of small integers,
      a quotient that is a small integer, a product by ten) is exactly
      representable in binary64, so both arithmetics agree there; the same
      holds for the progress ratio and percentage of the counts 0 to 5.
      The properties of the statistics on other data are stated where
      this still holds: for the median, on integers of magnitude at most
      2^52 ([fits]); for the mean, on data whose average is an integer
      and whose magnitudes sum to at most 2^53 / 10 ([magnitude]).
    - A [dict] whose order of insertion is observed ([Counter],
      [scenarios], [stat_types]) is an association list; the two dicts of
      [st.session_state], of which only membership and [len] are observed,
      are [gmap]s.
    - Streamlit runs the script from top to bottom on every interaction;
      a run reads the widget values, sees at most one button pressed,
      and leaves [st.session_state] to the next run.  A run is a function
      from the session state to a result, a session state and the list of
      elements put on the page.  Layout, styling, spinners and pauses are
      left out. *)

From Stdlib Require Import ZArith QArith Qround Ascii String Lqa.
From stdpp Require Import gmap strings list fin_maps sorting.

Local Open Scope Z_scope.

(** ** Python strings *)

Module PyStr.

Abbreviation pystr := (list N).

Definition bytes_of (s : string) : list N :=
  N_of_ascii <$> list_ascii_of_string s.

(** UTF-8 decoding of a source literal (1 to 4 byte sequences). *)
Fixpoint utf8_decode (bs : list N) : pystr :=
  match bs with
  | [] => []
  | b0 :: r0 =>
      if (b0 <? 128)%N then b0 :: utf8_decode r0
      else if (b0 <? 224)%N then
        match r0 with
        | b1 :: r1 => ((b0 - 192) * 64 + (b1 - 128))%N :: utf8_decode r1
        | _ => []
        end
      else if (b0 <? 240)%N then
        match r0 with
        | b1 :: b2 :: r2 =>
            ((b0 - 224) * 4096 + (b1 - 128) * 64 + (b2 - 128))%N
              :: utf8_decode r2
        | _ => []
        end
      else
        match r0 with
        | b1 :: b2 :: b3 :: r3 =>
            ((b0 - 240) * 262144 + (b1 - 128) * 4096
             + (b2 - 128) * 64 + (b3 - 128))%N :: utf8_decode r3
        | _ => []
        end
  end.

Definition py (s : string) : pystr := utf8_decode (bytes_of s).

(** [bool(s)]: a string is truthy when it is not empty. *)
Definition truthy (s : pystr) : bool :=
  match s with [] => false | _ :: _ => true end.

(** [a == b] on strings. *)
Definition str_eqb (a b : pystr) : bool := bool_decide (a = b).

(** [x in xs] for a list of strings. *)
Definition str_in_list (x : pystr) (xs : list pystr) : bool :=
  existsb (str_eqb x) xs.

(** [s.startswith(p)]. *)
Fixpoint startswith (p s : pystr) : bool :=
  match p, s with
  | [], _ => true
  | _ :: _, [] => false
  | a :: p', b :: s' => (a =? b)%N && startswith p' s'
  end.

(** [sub in s]: [sub] occurs in [s] as a contiguous run. *)
Fixpoint contains (sub s : pystr) : bool :=
  startswith sub s
  || match s with
     | [] => false
     | _ :: s' => contains sub s'
     end.

(** [str.lower()].  Python lowers every cased code point of Unicode;
    the table kept here is the ASCII one.  The keywords the page looks
    for are Hangul syllables and the space, which have no case, are left
    alone by [str.lower] and are the image of no other code point, so a
    keyword search in the lowered text does not depend on the rest of
    the table (see [keyword_search_any_case_table] below). *)
Definition lower_cp (c : N) : N :=
  if (65 <=? c)%N && (c <=? 90)%N then (c + 32)%N else c.

Definition lower (s : pystr) : pystr := lower_cp <$> s.

(** The code points [str.strip()] removes: [str.isspace]. *)
Definition isspace (c : N) : bool :=
  ((9 <=? c) && (c <=? 13) || (28 <=? c) && (c <=? 32)
   || (c =? 133) || (c =? 160) || (c =? 5760)
   || (8192 <=? c) && (c <=? 8202)
   || (c =? 8232) || (c =? 8233) || (c =? 8239) || (c =? 8287)
   || (c =? 12288))%N.

Fixpoint lstrip (s : pystr) : pystr :=
  match s with
  | [] => []
  | c :: s' => if isspace c then lstrip s' else s
  end.

Definition rstrip (s : pystr) : pystr := reverse (lstrip (reverse s)).

Definition strip (s : pystr) : pystr := rstrip (lstrip s).

End PyStr.
Import PyStr.

(** ** Statistics: [calculate_stats] *)

Module Stats.

(** [np.round(x, 1)] on a float: times ten, round half to even, over ten.
    The three steps are taken in exact arithmetic here; [float64] takes
    them with a rounding each, and agrees when [x] and ten times [x] are
    integers of magnitude at most 2^53. *)
Definition rint (q : Q) : Z :=
  let lo := Qfloor q in
  match Qcompare (q - inject_Z lo) (1 # 2) with
  | Lt => lo
  | Gt => lo + 1
  | Eq => if Z.even lo then lo else lo + 1
  end.

Definition round1 (q : Q) : Q := (inject_Z (rint (q * 10)) / 10)%Q.

Definition np_sum (data : list Z) : Z := foldr Z.add 0 data.

(** [np.mean].  On the empty list NumPy answers [nan] (with a warning);
    [calculate_stats] raises before that value can be returned.  The
    quotient is the exact one; [float64] agrees when the partial sums are
    integers of magnitude at most 2^53 and the quotient is a [float64]
    value, as it is when it is an integer or the half of one. *)
Definition np_mean (data : list Z) : Q :=
  (inject_Z (np_sum data) / inject_Z (Z.of_nat (length data)))%Q.

(** [np.median]: order the values, then average the middle slice, one
    element for an odd length and two for an even one.  On integers of
    magnitude at most 2^52 this average is exact in [float64] too. *)
Definition np_median (data : list Z) : Q :=
  let part := merge_sort Z.le data in
  let sz := length part in
  let index := (sz / 2)%nat in
  if Nat.odd sz
  then np_mean (take 1 (drop index part))
  else np_mean (take 2 (drop (index - 1) part)).

(** [Counter(data)]: the tally, keys in order of first insertion. *)
Fixpoint counter_add (k : Z) (c : list (Z * nat)) : list (Z * nat) :=
  match c with
  | [] => [(k, 1%nat)]
  | (k', n) :: c' =>
      if (k =? k') then (k', S n) :: c' else (k', n) :: counter_add k c'
  end.

Definition Counter (data : list Z) : list (Z * nat) :=
  fold_left (fun c k => counter_add k c) data [].

(** [max(items, key=itemgetter(1))]: a later item replaces the running
    best only when its count is strictly larger. *)
Fixpoint max_by_count (best : Z * nat) (items : list (Z * nat)) : Z * nat :=
  match items with
  | [] => best
  | it :: rest =>
      if (best.2 <? it.2)%nat then max_by_count it rest
      else max_by_count best rest
  end.

(** [most_common(1)]: [heapq.nlargest(1, ...)], which is [max] on a
    non-empty tally and the empty list otherwise. *)
Definition most_common_1 (c : list (Z * nat)) : list (Z * nat) :=
  match c with
  | [] => []
  | it :: rest => [max_by_count it rest]
  end.

Record stats : Type := mk_stats { mean : Q; median : Q; mode : Z }.

(** [None] is the [IndexError] of [most_common(1)[0]] on an empty tally. *)
Definition calculate_stats (data : list Z) : option stats :=
  let mean := np_mean data in
  let median := np_median data in
  let mode_counter := Counter data in
  match most_common_1 mode_counter with
  | [] => None
  | (mode, _) :: _ =>
      Some {| mean := round1 mean; median := median; mode := mode |}
  end.

(** The [scenarios] table: id, data and the highlighted positions
    (titles and questions are display text only). *)
Record scenario : Type := mk_scenario {
  data : list Z;
  outlier_index : option nat;
  mode_indices : list nat
}.

Definition scenarios : list (Z * scenario) :=
  [ (1, {| data := [4; 5; 6; 6; 6; 7; 7; 23];
           outlier_index := Some 7%nat; mode_indices := [] |});
    (2, {| data := [250; 250; 250; 260; 260; 270; 280];
           outlier_index := None; mode_indices := [0; 1; 2]%nat |}) ].

End Stats.

(** ** Keyword rules shared by both pages *)

Module Rules.

(** The three feedbacks of the answer check: the [feedback-positive] box
    "훌륭합니다!", the [feedback-negative] box "대푯값 선택은 맞지만" and
    the [feedback-negative] box "다시 생각해보세요!". *)
Inductive outcome : Type := Correct | PartiallyCorrect | Incorrect.

(** The three feedbacks of the example check: [st.success], [st.info] and
    [st.warning]. *)
Inductive appraisal : Type :=
  Appropriate | PartiallyAppropriate | Inappropriate.

(** [d[k]] on a dict literal; [None] is [KeyError]. *)
Fixpoint dict_get {K V : Type} `{EqDecision K}
    (d : list (K * V)) (k : K) : option V :=
  match d with
  | [] => None
  | (k', v) :: d' => if decide (k = k') then Some v else dict_get d' k
  end.

Definition placeholder : pystr := py "선택하세요".

Definition options : list pystr :=
  [py "선택하세요"; py "평균"; py "중앙값"; py "최빈값"].

Record answer_key : Type := mk_answer_key {
  stats : list pystr;
  keywords : list pystr
}.

Definition correct_answers : list (Z * answer_key) :=
  [ (1, {| stats := [py "중앙값"; py "최빈값"];
           keywords := [py "극단값"; py "이상치"; py "왜곡"; py "영향";
                        py "극단"] |});
    (2, {| stats := [py "최빈값"];
           keywords := [py "많이 팔린"; py "빈도"; py "자주";
                        py "흔한"] |}) ].

(** The three branches of the answer check. *)
Definition answer_outcome (correct : answer_key)
    (best_stat reason : pystr) : outcome :=
  let is_correct_stat := str_in_list best_stat (stats correct) in
  let has_key_reason :=
    existsb (fun keyword => contains keyword (lower reason))
            (keywords correct) in
  if is_correct_stat && has_key_reason then Correct
  else if is_correct_stat then PartiallyCorrect
  else Incorrect.

Record rule : Type := mk_rule {
  good_keywords : list pystr;
  bad_keywords : list pystr
}.

Definition analysis_rules : list (pystr * rule) :=
  [ (py "mean",
     {| good_keywords := [py "고르게"; py "균등"; py "일정"; py "비슷";
                          py "평균적"; py "고루"; py "분포"];
        bad_keywords := [py "극단"; py "이상치"; py "튀는"; py "치우쳐";
                         py "빈도"] |});
    (py "median",
     {| good_keywords := [py "극단"; py "이상치"; py "튀는"; py "치우쳐";
                          py "왜곡"; py "한쪽으로"];
        bad_keywords := [py "고르게"; py "균등"; py "평균적";
                         py "빈도"] |});
    (py "mode",
     {| good_keywords := [py "많이"; py "자주"; py "흔한"; py "인기";
                          py "빈도"; py "판매량"; py "최다"];
        bad_keywords := [py "평균"; py "중간"; py "균등";
                         py "고르게"] |}) ].

(** The three branches of the example check. *)
Definition example_appraisal (rule : rule) (example_text : pystr)
    : appraisal :=
  let lower_text := lower example_text in
  let has_good :=
    existsb (fun keyword => contains keyword lower_text)
            (good_keywords rule) in
  let has_bad :=
    existsb (fun keyword => contains keyword lower_text)
            (bad_keywords rule) in
  if has_good && negb has_bad then Appropriate
  else if has_good then PartiallyAppropriate
  else Inappropriate.

(** [stat_types]: key and displayed name, in page order. *)
Definition stat_types : list (pystr * pystr) :=
  [ (py "mean", py "평균"); (py "median", py "중앙값");
    (py "mode", py "최빈값") ].

End Rules.
Import Rules.

(** ** Script runs: session state, rendered elements, exceptions *)

Module Script.

(** The two dicts the pages keep in [st.session_state]. *)
Record session_state : Type := mk_session {
  answers_submitted : gmap Z bool;
  ai_examples_checked : gmap pystr bool
}.

(** The session right after the [if ... not in st.session_state] guards
    of its first run. *)
Definition fresh_session : session_state :=
  {| answers_submitted := ∅; ai_examples_checked := ∅ |}.

(** What one run of the script puts on the page. *)
Inductive output : Type :=
| ModeBanner (use_ai : bool)
| StatsDisplay (scenario_id : Z) (stats : Stats.stats)
| AnswerFeedback (scenario_id : Z) (o : outcome)
| AnswerRemote (scenario_id : Z) (o : outcome) (ai_feedback : pystr)
| AnswerInputError (scenario_id : Z)
| ExampleFeedback (stat_key : pystr) (a : appraisal)
| ExampleRemote (stat_key : pystr) (a : appraisal) (ai_response : pystr)
| ExampleInputError (stat_key : pystr)
| RemoteError
| ProgressBar (value : Q)
| ProgressText (completed total : nat) (percent : Z)
| Balloons.

Inductive result (A : Type) : Type :=
| Ok (a : A)
| Raised.
Arguments Ok {A} a.
Arguments Raised {A}.

(** A piece of script: it reads and writes a state [S], appends to the
    page, and either finishes or raises.  What was written and rendered
    before an exception stays. *)
Definition script (S A : Type) : Type := S → result A * S * list output.

Definition ret {S A} (a : A) : script S A := λ s, (Ok a, s, []).

Definition bind {S A B} (c : script S A) (k : A → script S B)
    : script S B :=
  λ s, match c s with
       | (Ok a, s1, out1) =>
           match k a s1 with (r, s2, out2) => (r, s2, out1 ++ out2) end
       | (Raised, s1, out1) => (Raised, s1, out1)
       end.

#[global] Instance script_ret {S} : MRet (script S) := @ret S.
#[global] Instance script_bind {S} : MBind (script S) :=
  λ A B k c, bind c k.

Definition get {S} : script S S := λ s, (Ok s, s, []).
Definition modify {S} (f : S → S) : script S unit := λ s, (Ok (), f s, []).
Definition emit {S} (o : output) : script S unit := λ s, (Ok (), s, [o]).
Definition raise {S A} : script S A := λ s, (Raised, s, []).

(** The value of an expression that may raise. *)
Definition eval {S A} (v : option A) : script S A :=
  match v with Some a => ret a | None => raise end.

(** [if b: body]. *)
Definition when {S} (b : bool) (body : script S unit) : script S unit :=
  if b then body else ret ().

(** [for x in xs: body(x)]. *)
Fixpoint for_each {S X} (xs : list X) (body : X → script S unit)
    : script S unit :=
  match xs with
  | [] => ret ()
  | x :: xs' => body x ;; for_each xs' body
  end.

(** [try: body / except Exception: handler]. *)
Definition try_except {S} (body handler : script S unit)
    : script S unit :=
  λ s, match body s with
       | (Ok a, s1, out1) => (Ok a, s1, out1)
       | (Raised, s1, out1) =>
           match handler s1 with (r, s2, out2) => (r, s2, out1 ++ out2) end
       end.

Definition state_of {S A} (r : result A * S * list output) : S := r.1.2.
Definition page_of {S A} (r : result A * S * list output) : list output :=
  r.2.
Definition result_of {S A} (r : result A * S * list output) : result A :=
  r.1.1.

(** The buttons of the page; a run sees at most one of them pressed. *)
Inductive button : Type :=
| submit (scenario_id : Z)
| check (stat_key : pystr).

#[global] Instance button_eq_dec : EqDecision button.
Proof. solve_decision. Defined.

(** The widget values a run reads, by widget key. *)
Record widgets : Type := mk_widgets {
  stat_select : Z → pystr;
  reason : Z → pystr;
  example : pystr → pystr;
  clicked : option button
}.

(** [st.button(..., key=b)]. *)
Definition st_button (w : widgets) (b : button) : bool :=
  bool_decide (clicked w = Some b).

Definition total_activities : nat := 5.

(** [len(answers_submitted) + len(ai_examples_checked)]. *)
Definition completed_activities (s : session_state) : nat :=
  (0 + size (answers_submitted s) + size (ai_examples_checked s))%nat.

(** [int(x)] on a float: truncation towards zero. *)
Definition int_of (x : Q) : Z := Z.quot (Qnum x) (Z.pos (Qden x)).

Definition ratio (completed total : nat) : Q :=
  (inject_Z (Z.of_nat completed) / inject_Z (Z.of_nat total))%Q.

(** [st.progress(value)] for a float: Streamlit raises outside [0, 1]. *)
Definition st_progress {S} (value : Q) : script S unit :=
  if Qle_bool 0 value && Qle_bool value 1 then emit (ProgressBar value)
  else raise.

(** [st.session_state.answers_submitted[scenario_id] = True]. *)
Definition set_answer (scenario_id : Z) (s : session_state)
    : session_state :=
  {| answers_submitted := <[scenario_id := true]> (answers_submitted s);
     ai_examples_checked := ai_examples_checked s |}.

(** [st.session_state.ai_examples_checked[stat_key] = True]. *)
Definition set_example (stat_key : pystr) (s : session_state)
    : session_state :=
  {| answers_submitted := answers_submitted s;
     ai_examples_checked := <[stat_key := true]> (ai_examples_checked s) |}.

(** [best_stat != "선택하세요" and reason.strip()], as a condition. *)
Definition answer_given (best_stat reason : pystr) : bool :=
  negb (str_eqb best_stat placeholder) && truthy (strip reason).

(** [example_text.strip()], as a condition. *)
Definition example_given (example_text : pystr) : bool :=
  truthy (strip example_text).

(** The progress check that ends both pages. *)
Definition progress_block {S} (session : session_state) : script S unit :=
  let completed_activities := completed_activities session in
  st_progress (ratio completed_activities total_activities);;
  emit (ProgressText completed_activities total_activities
          (int_of (ratio completed_activities total_activities * 100)));;
  when (completed_activities =? total_activities)%nat (emit Balloons).

End Script.
Import Script.

(** ** [streamlit_app.py]: the keyword-only page *)

Module StreamlitApp.

(** The body of [if st.button("답변 제출", key=f"submit_{scenario_id}")]. *)
Definition on_submit (scenario_id : Z) (best_stat reason : pystr)
    : script session_state unit :=
  if answer_given best_stat reason then
    correct ← eval (dict_get correct_answers scenario_id);
    emit (AnswerFeedback scenario_id
            (answer_outcome correct best_stat reason));;
    modify (set_answer scenario_id)
  else emit (AnswerInputError scenario_id).

(** The body of [if st.button(..., key=f"check_{stat_key}")]. *)
Definition on_check (stat_key example_text : pystr)
    : script session_state unit :=
  if example_given example_text then
    rule ← eval (dict_get analysis_rules stat_key);
    emit (ExampleFeedback stat_key (example_appraisal rule example_text));;
    modify (set_example stat_key)
  else emit (ExampleInputError stat_key).

Definition scenario_block (w : widgets) (item : Z * Stats.scenario)
    : script session_state unit :=
  let scenario_id := item.1 in
  let scenario := item.2 in
  stats ← eval (Stats.calculate_stats (Stats.data scenario));
  emit (StatsDisplay scenario_id stats);;
  let best_stat := stat_select w scenario_id in
  let reason := reason w scenario_id in
  when (st_button w (submit scenario_id))
       (on_submit scenario_id best_stat reason).

Definition stat_block (w : widgets) (item : pystr * pystr)
    : script session_state unit :=
  let stat_key := item.1 in
  let example_text := example w stat_key in
  when (st_button w (check stat_key)) (on_check stat_key example_text).

(** One run of the script, top to bottom. *)
Definition run_script (w : widgets) : script session_state unit :=
  for_each Stats.scenarios (scenario_block w);;
  for_each stat_types (stat_block w);;
  session ← get;
  progress_block session.

End StreamlitApp.

(** ** [app.py]: the page with a remote judge *)

Module App.

(** The remote judge, seen from the page: given what the prompt is built
    from, a call answers with a text or raises ([None]). *)
Record judge : Type := mk_judge {
  judge_answer : Z → pystr → pystr → option pystr;
  judge_example : pystr → pystr → option pystr
}.

(** The script's own variables: the session and the [USE_AI] flag. *)
Record globals : Type := mk_globals {
  session : session_state;
  USE_AI : bool
}.

Definition set_USE_AI (b : bool) (g : globals) : globals :=
  {| session := session g; USE_AI := b |}.

Definition in_session (f : session_state → session_state) (g : globals)
    : globals :=
  {| session := f (session g); USE_AI := USE_AI g |}.

(** [client] is truthy when there is one. *)
Definition has_client (client : option judge) : bool :=
  match client with Some _ => true | None => false end.

Definition answer_marker (ai_feedback : pystr) : outcome :=
  if contains (py "✅ 훌륭합니다!") ai_feedback then Correct
  else if contains (py "💭 좋은 시도입니다!") ai_feedback
       then PartiallyCorrect
  else Incorrect.

Definition example_marker (ai_response : pystr) : appraisal :=
  if contains (py "✅ 훌륭합니다!") ai_response then Appropriate
  else if contains (py "👍 좋습니다!") ai_response
       then PartiallyAppropriate
  else Inappropriate.

Definition on_submit (client : option judge) (scenario_id : Z)
    (best_stat reason : pystr) : script globals unit :=
  if answer_given best_stat reason then
    g ← get;
    when (USE_AI g && has_client client)
      (try_except
         (ai_feedback ← eval (c ← client;
                               judge_answer c scenario_id best_stat reason);
          emit (AnswerRemote scenario_id (answer_marker ai_feedback)
                  ai_feedback))
         (emit RemoteError;;
          modify (set_USE_AI false)));;
    g ← get;
    when (negb (USE_AI g))
      (correct ← eval (dict_get correct_answers scenario_id);
       emit (AnswerFeedback scenario_id
               (answer_outcome correct best_stat reason)));;
    modify (in_session (set_answer scenario_id))
  else emit (AnswerInputError scenario_id).

Definition on_check (client : option judge)
    (stat_key example_text : pystr) : script globals unit :=
  if example_given example_text then
    g ← get;
    when (USE_AI g && has_client client)
      (try_except
         (ai_response ← eval (c ← client;
                               judge_example c stat_key example_text);
          emit (ExampleRemote stat_key (example_marker ai_response)
                  ai_response))
         (emit RemoteError;;
          modify (set_USE_AI false)));;
    g ← get;
    when (negb (USE_AI g))
      (rule ← eval (dict_get analysis_rules stat_key);
       emit (ExampleFeedback stat_key
               (example_appraisal rule example_text)));;
    modify (in_session (set_example stat_key))
  else emit (ExampleInputError stat_key).

Definition scenario_block (client : option judge) (w : widgets)
    (item : Z * Stats.scenario) : script globals unit :=
  let scenario_id := item.1 in
  let scenario := item.2 in
  stats ← eval (Stats.calculate_stats (Stats.data scenario));
  emit (StatsDisplay scenario_id stats);;
  let best_stat := stat_select w scenario_id in
  let reason := reason w scenario_id in
  when (st_button w (submit scenario_id))
       (on_submit client scenario_id best_stat reason).

Definition stat_block (client : option judge) (w : widgets)
    (item : pystr * pystr) : script globals unit :=
  let stat_key := item.1 in
  let example_text := example w stat_key in
  when (st_button w (check stat_key))
       (on_check client stat_key example_text).

(** One run of the script; [USE_AI = client is not None] opens it. *)
Definition run_script (client : option judge) (w : widgets)
    : script globals unit :=
  modify (set_USE_AI (has_client client));;
  g ← get;
  emit (ModeBanner (USE_AI g));;
  for_each Stats.scenarios (scenario_block client w);;
  for_each stat_types (stat_block client w);;
  g ← get;
  progress_block (session g).

(** A run seen from the session: [USE_AI] does not outlive the run. *)
Definition run (client : option judge) (w : widgets)
    : script session_state unit :=
  λ s, match run_script client w {| session := s; USE_AI := false |} with
       | (r, g, out) => (r, session g, out)
       end.

End App.

(** ** Sessions: one run after another *)

Module Session.

(** The session state after the runs [ws], oldest first.  A run that
    raised would still leave what it had written. *)
Definition session_after (page : widgets → script session_state unit)
    (ws : list widgets) : session_state :=
  fold_left (λ s w, state_of (page w s)) ws fresh_session.

(** The same from any session state. *)
Definition session_from (page : widgets → script session_state unit)
    (s : session_state) (ws : list widgets) : session_state :=
  fold_left (λ s w, state_of (page w s)) ws s.

(** A reachable session state. *)
Inductive reachable (page : widgets → script session_state unit)
    : session_state → Prop :=
| reachable_fresh : reachable page fresh_session
| reachable_run w s :
    reachable page s → reachable page (state_of (page w s)).

(** Did this run fire the balloons? *)
Definition fired (out : list output) : bool :=
  existsb (λ o, match o with Balloons => true | _ => false end) out.

(** The pages of a whole session, one per run. *)
Fixpoint pages (page : widgets → script session_state unit)
    (ws : list widgets) (s : session_state) : list (list output) :=
  match ws with
  | [] => []
  | w :: ws' => page_of (page w s) :: pages page ws' (state_of (page w s))
  end.

(** How many runs of the session fired the balloons. *)
Definition celebrations (page : widgets → script session_state unit)
    (ws : list widgets) : nat :=
  length (filter (λ out, fired out = true) (pages page ws fresh_session)).

End Session.
Import Session.

(** ** Vocabulary of the properties *)

Module Vocabulary.

(** How often [v] occurs in [data]. *)
Definition occurrences (v : Z) (data : list Z) : nat :=
  length (filter (λ x, x = v) data).

(** The position of the first [v] in [data]. *)
Fixpoint first_index (v : Z) (data : list Z) : option nat :=
  match data with
  | [] => None
  | x :: rest =>
      if decide (x = v) then Some 0%nat else S <$> first_index v rest
  end.

(** [a] first appears in [data] before [b] does. *)
Definition appears_before (a b : Z) (data : list Z) : Prop :=
  ∃ i j, first_index a data = Some i ∧ first_index b data = Some j
         ∧ (i < j)%nat.

(** What a tally knows about the values it has seen: its keys are the
    values seen, each once and in order of first appearance, with their
    numbers of occurrences. *)
Record tally_of (seen : list Z) (c : list (Z * nat)) : Prop := {
  tally_nodup : NoDup (c.*1);
  tally_keys : ∀ k, k ∈ c.*1 ↔ k ∈ seen;
  tally_count : ∀ k n, (k, n) ∈ c → n = occurrences k seen;
  tally_order : ∀ i j a b,
    c.*1 !! i = Some a → c.*1 !! j = Some b → (i < j)%nat →
    appears_before a b seen
}.

(** [kw] occurs in [s] up to case: some run of [s] lowers to what [kw]
    lowers to. *)
Definition occurs_ci (kw s : pystr) : Prop :=
  ∃ pre mid post, s = pre ++ mid ++ post ∧ lower mid = lower kw.

(** [s] contains, up to case, at least one of [keywords]. *)
Definition mentions (keywords : list pystr) (s : pystr) : Prop :=
  ∃ kw, kw ∈ keywords ∧ occurs_ci kw s.

(** Code points without case that no case mapping produces from
    another one: the space and the Hangul syllables. *)
Definition caseless (c : N) : bool :=
  ((c =? 32) || (44032 <=? c) && (c <=? 55203))%N.

(** [s'] is an image of [s] under some case table: caseless code points
    stay, any other becomes one or more code points with case. *)
Inductive case_image : pystr → pystr → Prop :=
| case_image_nil : case_image [] []
| case_image_keep c s s' :
    caseless c = true → case_image s s' → case_image (c :: s) (c :: s')
| case_image_map c d blk s s' :
    caseless c = false → Forall (λ x, caseless x = false) (d :: blk) →
    case_image s s' → case_image (c :: s) ((d :: blk) ++ s').

(** What a run completes: the pressed button, when it is on the page and
    its input passes the emptiness check. *)
Definition completes (w : widgets) : option button :=
  match clicked w with
  | Some (submit scenario_id) =>
      if bool_decide (scenario_id ∈ Stats.scenarios.*1)
         && answer_given (stat_select w scenario_id) (reason w scenario_id)
      then Some (submit scenario_id) else None
  | Some (check stat_key) =>
      if bool_decide (stat_key ∈ stat_types.*1)
         && example_given (example w stat_key)
      then Some (check stat_key) else None
  | None => None
  end.

(** The session state with that button's activity marked. *)
Definition mark (b : option button) (s : session_state) : session_state :=
  match b with
  | Some (submit scenario_id) => set_answer scenario_id s
  | Some (check stat_key) => set_example stat_key s
  | None => s
  end.

(** The scenario, the statistic a run completes. *)
Definition completed_scenario (w : widgets) : option Z :=
  match completes w with
  | Some (submit scenario_id) => Some scenario_id
  | _ => None
  end.

Definition completed_stat_type (w : widgets) : option pystr :=
  match completes w with
  | Some (check stat_key) => Some stat_key
  | _ => None
  end.

(** The distinct scenarios and statistics completed in the runs [ws]. *)
Definition completed_scenarios (ws : list widgets) : gset Z :=
  list_to_set (omap completed_scenario ws).

Definition completed_stat_types (ws : list widgets) : gset pystr :=
  list_to_set (omap completed_stat_type ws).

(** The elements of the progress check. *)
Definition is_progress (o : output) : bool :=
  match o with
  | ProgressBar _ | ProgressText _ _ _ | Balloons => true
  | _ => false
  end.

(** The page below the blocks, for a count within range. *)
Definition progress_page (n : nat) : list output :=
  [ProgressBar (ratio n total_activities);
   ProgressText n total_activities (20 * Z.of_nat n)]
  ++ (if (n =? total_activities)%nat then [Balloons] else []).

(** The two pages. *)
Inductive is_page : (widgets → script session_state unit) → Prop :=
| local_page : is_page StreamlitApp.run_script
| remote_page client : is_page (App.run client).

(** The same scenario submitted, the same statistic checked, several
    times in a row. *)
Definition resubmit (scenario_id : Z) (answers : list (pystr * pystr))
    (s : session_state) : session_state :=
  fold_left
    (λ s a, state_of (StreamlitApp.on_submit scenario_id a.1 a.2 s))
    answers s.

Definition recheck (stat_key : pystr) (texts : list pystr)
    (s : session_state) : session_state :=
  fold_left (λ s t, state_of (StreamlitApp.on_check stat_key t s)) texts s.

(** Example inputs: a render without click, a click with non-empty
    inputs that earn no praise, and the five activities in page order. *)
Definition idle : widgets :=
  {| stat_select := λ _, placeholder; reason := λ _, [];
     example := λ _, []; clicked := None |}.

Definition press (b : button) : widgets :=
  {| stat_select := λ _, py "평균"; reason := λ _, py "그냥요";
     example := λ _, py "잘 모르겠어요"; clicked := Some b |}.

Definition all_five : list widgets :=
  [press (submit 1); press (submit 2); press (check (py "mean"));
   press (check (py "median")); press (check (py "mode"))].

Definition scenario1_data : list Z := [4; 5; 6; 6; 6; 7; 7; 23].
Definition scenario2_data : list Z := [250; 250; 250; 260; 260; 270; 280].

End Vocabulary.
Import Vocabulary.

(** ** The data line of a scenario *)

Module Markup.

(** The CSS classes of a data item: [data-item] alone, with [outlier], or
    with [mode-highlight]. *)
Inductive item_class : Type := data_item | outlier | mode_highlight.

(** The loop that builds [data_html]: one span per value, in order.
    [scenario.get('outlier_index')] is [None] when the scenario has no
    such key, [scenario.get('mode_indices', [])] is the empty list. *)
Definition data_html (scenario_id : Z) (scenario : Stats.scenario)
    : list (item_class * Z) :=
  imap (λ idx value,
          if (scenario_id =? 1)
             && bool_decide (Some idx = Stats.outlier_index scenario)
          then (outlier, value)
          else if (scenario_id =? 2)
                  && bool_decide (idx ∈ Stats.mode_indices scenario)
          then (mode_highlight, value)
          else (data_item, value))
       (Stats.data scenario).

End Markup.

(** ** Vocabulary of the further properties *)

Module Measures.

(** The integers [np.median] treats exactly: one of magnitude at most
    2^52 converts to [float64] as it is, the sum of two of them has
    magnitude at most 2^53 and is exact, and so is its half. *)
Definition fits (x : Z) : bool := Z.abs x <=? 2 ^ 52.

(** The sum of the magnitudes of the data: a bound on the sum of any part
    of them, hence on every partial sum, in whichever order NumPy adds. *)
Definition magnitude (data : list Z) : Z :=
  foldr (λ x acc, Z.abs x + acc) 0 data.

(** How many values of [data] are at most, and at least, [q]. *)
Definition at_most (q : Q) (data : list Z) : nat :=
  length (filter (λ x, Qle_bool (inject_Z x) q = true) data).

Definition at_least (q : Q) (data : list Z) : nat :=
  length (filter (λ x, Qle_bool q (inject_Z x) = true) data).

(** A script of the keyword page run on the session of [app.py]'s
    variables; [USE_AI] is left as it is. *)
Definition lift (c : script session_state unit) : script App.globals unit :=
  λ g, match c (App.session g) with
       | (r, s', out) =>
           (r, {| App.session := s'; App.USE_AI := App.USE_AI g |}, out)
       end.

(** The elements of a page that answer a press: a verdict, a judge's
    text, an input error or the notice of a failed call. *)
Definition is_feedback (o : output) : bool :=
  match o with
  | AnswerFeedback _ _ | AnswerRemote _ _ _ | AnswerInputError _
  | ExampleFeedback _ _ | ExampleRemote _ _ _ | ExampleInputError _
  | RemoteError => true
  | _ => false
  end.

(** What the keyword rules answer to the press of [w], if any. *)
Definition local_verdict (w : widgets) : list output :=
  match clicked w with
  | Some (submit scenario_id) =>
      if bool_decide (scenario_id ∈ Stats.scenarios.*1) then
        match dict_get correct_answers scenario_id with
        | Some key =>
            let best_stat := stat_select w scenario_id in
            let reason := reason w scenario_id in
            [if answer_given best_stat reason
             then AnswerFeedback scenario_id
                    (answer_outcome key best_stat reason)
             else AnswerInputError scenario_id]
        | None => []
        end
      else []
  | Some (check stat_key) =>
      if bool_decide (stat_key ∈ stat_types.*1) then
        match dict_get analysis_rules stat_key with
        | Some rule =>
            let example_text := example w stat_key in
            [if example_given example_text
             then ExampleFeedback stat_key
                    (example_appraisal rule example_text)
             else ExampleInputError stat_key]
        | None => []
        end
      else []
  | None => []
  end.

(** What a page with the judge [c] answers to the press of [w]. *)
Definition remote_verdict (c : App.judge) (w : widgets) : list output :=
  match clicked w with
  | Some (submit scenario_id) =>
      if bool_decide (scenario_id ∈ Stats.scenarios.*1) then
        match dict_get correct_answers scenario_id with
        | Some key =>
            let best_stat := stat_select w scenario_id in
            let reason := reason w scenario_id in
            if answer_given best_stat reason then
              match App.judge_answer c scenario_id best_stat reason with
              | Some ai_feedback =>
                  [AnswerRemote scenario_id (App.answer_marker ai_feedback)
                     ai_feedback]
              | None =>
                  [RemoteError;
                   AnswerFeedback scenario_id
                     (answer_outcome key best_stat reason)]
              end
            else [AnswerInputError scenario_id]
        | None => []
        end
      else []
  | Some (check stat_key) =>
      if bool_decide (stat_key ∈ stat_types.*1) then
        match dict_get analysis_rules stat_key with
        | Some rule =>
            let example_text := example w stat_key in
            if example_given example_text then
              match App.judge_example c stat_key example_text with
              | Some ai_response =>
                  [ExampleRemote stat_key (App.example_marker ai_response)
                     ai_response]
              | None =>
                  [RemoteError;
                   ExampleFeedback stat_key
                     (example_appraisal rule example_text)]
              end
            else [ExampleInputError stat_key]
        | None => []
        end
      else []
  | None => []
  end.

End Measures.
Import Measures.

(** * Properties *)

(** ** Statistics *)

Lemma scenarios_data :
  Stats.data <$> dict_get Stats.scenarios 1 = Some scenario1_data
  ∧ Stats.data <$> dict_get Stats.scenarios 2 = Some scenario2_data.
Proof. split; reflexivity. Qed.

(** C1, as stated, does not hold: [calculate_stats] does not answer a mean
    of 6.5 on [4,5,6,6,6,7,7,23]. *)
Lemma C1_mean_is_not_6_5 :
  ¬ ∃ s, Stats.calculate_stats [4; 5; 6; 6; 6; 7; 7; 23] = Some s
         ∧ (Stats.mean s == 6.5)%Q ∧ (Stats.median s == 6)%Q
         ∧ Stats.mode s = 6.
Proof.
  intros (s & Hs & Hmean & _).
  vm_compute in Hs. injection Hs as <-.
  vm_compute in Hmean. discriminate.
Qed.

(** C1, amended: on [4,5,6,6,6,7,7,23], whose sum is 64 over 8 values,
    [calculate_stats] answers mean 8.0 (the average rounded to one
    decimal), median 6.0 and mode 6. *)
Theorem C1_scenario1_stats :
  ∃ s, Stats.calculate_stats [4; 5; 6; 6; 6; 7; 7; 23] = Some s
       ∧ Stats.mean s = Stats.round1 (Stats.np_mean scenario1_data)
       ∧ (Stats.np_mean scenario1_data == 64 / 8)%Q
       ∧ (Stats.mean s == 8)%Q ∧ (Stats.median s == 6)%Q
       ∧ Stats.mode s = 6.
Proof.
  eexists. split; [reflexivity|].
  repeat split; vm_compute; reflexivity.
Qed.

(** C4: on [250,250,250,260,260,270,280], whose sum is 1820 over 7
    values, [calculate_stats] answers mean 260.0 (the average rounded to
    one decimal), median 260.0 and mode 250. *)
Theorem C4_scenario2_stats :
  ∃ s, Stats.calculate_stats [250; 250; 250; 260; 260; 270; 280] = Some s
       ∧ Stats.np_sum scenario2_data = 1820
       ∧ length scenario2_data = 7%nat
       ∧ Stats.mean s = Stats.round1 (Stats.np_mean scenario2_data)
       ∧ (Stats.mean s == 260)%Q ∧ (Stats.median s == 260)%Q
       ∧ Stats.mode s = 250.
Proof.
  eexists. split; [reflexivity|].
  repeat split; vm_compute; reflexivity.
Qed.

Section Tally.
Implicit Types (data seen : list Z) (c : list (Z * nat)) (k v : Z).

Lemma occurrences_snoc v seen x :
  occurrences v (seen ++ [x])
  = (occurrences v seen + (if decide (x = v) then 1 else 0))%nat.
Proof.
  unfold occurrences. rewrite filter_app, length_app. f_equal.
  rewrite filter_cons. destruct (decide (x = v)); reflexivity.
Qed.

Lemma occurrences_pos v data : v ∈ data ↔ (0 < occurrences v data)%nat.
Proof.
  unfold occurrences. split.
  - intros Hin.
    assert (Hv : v ∈ filter (λ x, x = v) data)
      by (apply list_elem_of_filter; done).
    destruct (filter _ data); [inversion Hv | simpl; lia].
  - intros Hlen.
    destruct (filter (λ x, x = v) data) as [|y l] eqn:E;
      [simpl in Hlen; lia|].
    assert (Hy : y ∈ filter (λ x, x = v) data) by (rewrite E; left).
    apply list_elem_of_filter in Hy as [-> ?]. done.
Qed.

Lemma first_index_Some v data :
  v ∈ data → ∃ i, first_index v data = Some i ∧ (i < length data)%nat.
Proof.
  induction data as [|x r IH]; intros Hin; [inversion Hin|].
  simpl. destruct (decide (x = v)); [exists 0%nat; split; [done|lia]|].
  apply elem_of_cons in Hin as [->|Hin]; [done|].
  destruct (IH Hin) as (i & -> & ?). exists (S i). split; [done|simpl; lia].
Qed.

Lemma first_index_None v data : v ∉ data → first_index v data = None.
Proof.
  induction data as [|x r IH]; intros Hin; [done|].
  simpl. apply not_elem_of_cons in Hin as [? ?].
  destruct (decide (x = v)); [congruence|]. by rewrite IH.
Qed.

Lemma first_index_snoc v seen x :
  first_index v (seen ++ [x])
  = match first_index v seen with
    | Some i => Some i
    | None => if decide (x = v) then Some (length seen) else None
    end.
Proof.
  induction seen as [|y r IH]; simpl.
  - destruct (decide (x = v)); done.
  - destruct (decide (y = v)); [done|].
    rewrite IH. destruct (first_index v r); simpl; [done|].
    destruct (decide (x = v)); done.
Qed.

Lemma Counter_snoc seen x :
  Stats.Counter (seen ++ [x]) = Stats.counter_add x (Stats.Counter seen).
Proof. unfold Stats.Counter. by rewrite fold_left_app. Qed.

Lemma counter_add_keys k c :
  (Stats.counter_add k c).*1
  = if decide (k ∈ c.*1) then c.*1 else c.*1 ++ [k].
Proof.
  induction c as [|[k' n'] c IH]; [done|].
  cbn [Stats.counter_add]. destruct (Z.eqb_spec k k') as [->|Hne].
  - rewrite !fmap_cons. cbn [fst].
    destruct (decide (k' ∈ k' :: c.*1)) as [|Hin']; [done|].
    exfalso. apply Hin'. left.
  - rewrite !fmap_cons, IH. cbn [fst].
    destruct (decide (k ∈ c.*1)) as [Hin|Hnot];
      destruct (decide (k ∈ k' :: c.*1)) as [Hin'|Hin'].
    + done.
    + exfalso. apply Hin'. by right.
    + apply elem_of_cons in Hin' as [?|?]; done.
    + done.
Qed.

(** The entries of a tally after one more value. *)
Lemma counter_add_entry k c k' m :
  NoDup (c.*1) → (k', m) ∈ Stats.counter_add k c →
  (k' ≠ k ∧ (k', m) ∈ c)
  ∨ (k' = k ∧ ((∃ n, m = S n ∧ (k, n) ∈ c) ∨ (m = 1%nat ∧ k ∉ c.*1))).
Proof.
  induction c as [|[k0 n0] c IH]; simpl; intros Hnd Hin.
  - apply list_elem_of_singleton in Hin. injection Hin as -> ->.
    right. split; [done|]. right. split; [done|]. apply not_elem_of_nil.
  - apply NoDup_cons in Hnd as [Hk0 Hnd].
    destruct (Z.eqb_spec k k0) as [->|Hne].
    + apply elem_of_cons in Hin as [Hin|Hin].
      * injection Hin as -> ->. right. split; [done|]. left.
        exists n0. split; [done|]. left.
      * left. split; [|by right]. intros ->. apply Hk0.
        apply list_elem_of_fmap. by exists (k0, m).
    + apply elem_of_cons in Hin as [Hin|Hin].
      * injection Hin as -> ->. left. split; [done|]. left.
      * destruct (IH Hnd Hin) as [[? ?]|[-> [(n & -> & ?)|[-> Hnot]]]].
        -- left. split; [done|]. by right.
        -- right. split; [done|]. left. exists n. split; [done|]. by right.
        -- right. split; [done|]. right. split; [done|].
           intros [?|?]%elem_of_cons; done.
Qed.

Lemma appears_before_snoc a b seen x :
  appears_before a b seen → appears_before a b (seen ++ [x]).
Proof.
  intros (i & j & Ha & Hb & Hlt). exists i, j.
  rewrite !first_index_snoc, Ha, Hb. done.
Qed.

Lemma tally_of_nil : tally_of [] [].
Proof.
  split.
  - constructor.
  - intros k. done.
  - intros k n Hin. inversion Hin.
  - intros i j a b Hi. done.
Qed.

Lemma tally_of_snoc seen c x :
  tally_of seen c → tally_of (seen ++ [x]) (Stats.counter_add x c).
Proof.
  intros [Hnd Hkeys Hcount Horder]. split.
  - rewrite counter_add_keys. destruct (decide (x ∈ c.*1)); [done|].
    apply NoDup_app. split; [done|]. split.
    + intros k Hk ->%list_elem_of_singleton. done.
    + apply NoDup_singleton.
  - intros k. rewrite counter_add_keys, elem_of_app, list_elem_of_singleton.
    destruct (decide (x ∈ c.*1)) as [Hin|Hnot].
    + rewrite Hkeys. split; [auto|]. intros [?| ->]; [done|]. by apply Hkeys.
    + rewrite elem_of_app, list_elem_of_singleton, Hkeys. done.
  - intros k m Hin. rewrite occurrences_snoc.
    destruct (counter_add_entry _ _ _ _ Hnd Hin)
      as [[Hne Hc]|[-> [(n & -> & Hc)|[-> Hnot]]]].
    + rewrite decide_False by done. rewrite Nat.add_0_r. by apply Hcount.
    + rewrite decide_True by done. rewrite <- (Hcount _ _ Hc). lia.
    + rewrite decide_True by done.
      assert (H0 : occurrences x seen = 0%nat).
      { destruct (occurrences x seen) eqn:E; [done|].
        exfalso. apply Hnot, Hkeys, occurrences_pos. lia. }
      rewrite H0. done.
  - intros i j a b. rewrite counter_add_keys.
    destruct (decide (x ∈ c.*1)) as [Hin|Hnot].
    + intros Ha Hb Hlt. apply appears_before_snoc. eauto.
    + intros Ha Hb Hlt.
      assert (Hi : (i < length (c.*1))%nat).
      { apply lookup_lt_Some in Hb. rewrite length_app in Hb.
        simpl in Hb. lia. }
      rewrite lookup_app_l in Ha by done.
      destruct (decide (j < length (c.*1))%nat) as [Hj|Hj].
      * rewrite lookup_app_l in Hb by done.
        apply appears_before_snoc. eauto.
      * rewrite lookup_app_r in Hb by lia.
        apply list_lookup_singleton_Some in Hb as [_ <-].
        assert (Hain : a ∈ seen)
          by (apply Hkeys; by eapply list_elem_of_lookup_2).
        destruct (first_index_Some _ _ Hain) as (ia & Hia & Hlen).
        exists ia, (length seen). rewrite !first_index_snoc, Hia.
        rewrite first_index_None by (by rewrite <- Hkeys).
        rewrite decide_True by done. done.
Qed.

Lemma tally_of_Counter data : tally_of data (Stats.Counter data).
Proof.
  induction data as [|x seen IH] using rev_ind.
  - apply tally_of_nil.
  - rewrite Counter_snoc. by apply tally_of_snoc.
Qed.

(** [max] keeps the first of the largest. *)
Lemma max_by_count_first best items :
  ∃ i, (best :: items) !! i = Some (Stats.max_by_count best items)
       ∧ ∀ j x, (best :: items) !! j = Some x →
                (x.2 ≤ (Stats.max_by_count best items).2)%nat
                ∧ ((j < i)%nat
                   → (x.2 < (Stats.max_by_count best items).2)%nat).
Proof.
  revert best. induction items as [|it rest IH]; intros best; simpl.
  - exists 0%nat. split; [done|]. intros [|j] x Hx; [|done].
    injection Hx as ->. split; lia.
  - destruct (Nat.ltb_spec best.2 it.2) as [Hlt|Hge].
    + destruct (IH it) as (i & Hi & Hall). exists (S i). split; [done|].
      intros [|j] x Hx.
      * injection Hx as ->. destruct (Hall 0%nat it eq_refl) as [Hle _].
        split; lia.
      * destruct (Hall j x Hx) as [Hle Hstrict]. split; [done|].
        intros ?. apply Hstrict. lia.
    + destruct (IH best) as ([|i] & Hi & Hall).
      * exists 0%nat. split; [done|]. injection Hi as Hi.
        intros [|[|j]] x Hx.
        -- injection Hx as ->. rewrite <- Hi. split; lia.
        -- injection Hx as ->. rewrite <- Hi. split; lia.
        -- destruct (Hall (S j) x Hx) as [Hle _]. split; [done|lia].
      * exists (S (S i)). split; [done|].
        destruct (Hall 0%nat best eq_refl) as [_ Hbest].
        specialize (Hbest ltac:(lia)).
        intros [|[|j]] x Hx.
        -- injection Hx as ->. split; lia.
        -- injection Hx as ->. split; lia.
        -- destruct (Hall (S j) x Hx) as [Hle Hstrict]. split; [done|].
           intros ?. apply Hstrict. lia.
Qed.

End Tally.

(** C5: whenever [calculate_stats] answers (it raises on the empty list
    only), the mode is a value of the list with the largest number of
    occurrences, and every other value with as many occurrences first
    appears later in the list; so the modes of the two scenario datasets
    are fixed, 6 and 250. *)
Theorem C5_mode_first_most_common (data : list Z) :
  match Stats.calculate_stats data with
  | None => data = []
  | Some s =>
      Stats.mode s ∈ data
      ∧ (∀ v, (occurrences v data ≤ occurrences (Stats.mode s) data)%nat)
      ∧ (∀ v, v ≠ Stats.mode s →
              occurrences v data = occurrences (Stats.mode s) data →
              appears_before (Stats.mode s) v data)
  end
  ∧ Stats.mode <$> Stats.calculate_stats scenario1_data = Some 6
  ∧ Stats.mode <$> Stats.calculate_stats scenario2_data = Some 250.
Proof.
  split; [|split; reflexivity].
  unfold Stats.calculate_stats.
  pose proof (tally_of_Counter data) as [Hnd Hkeys Hcount Horder].
  destruct (Stats.Counter data) as [|it rest] eqn:Ec; cbn [Stats.most_common_1].
  - destruct data as [|x data]; [done|].
    exfalso. eapply not_elem_of_nil. apply Hkeys. left.
  - destruct (max_by_count_first it rest) as (i & Hi & Hall).
    destruct (Stats.max_by_count it rest) as [m n].
    cbn [fst snd Stats.mode] in *.
    assert (Hmkey : ((it :: rest).*1) !! i = Some m).
    { rewrite list_lookup_fmap, Hi. done. }
    assert (Hm : m ∈ data).
    { apply Hkeys. by eapply list_elem_of_lookup_2. }
    assert (Hn : n = occurrences m data).
    { apply Hcount. by eapply list_elem_of_lookup_2. }
    assert (Hentry : ∀ v, v ∈ data →
              ∃ j, (it :: rest) !! j = Some (v, occurrences v data)).
    { intros v Hv. apply Hkeys in Hv.
      apply list_elem_of_fmap in Hv as ([v' nv] & -> & Hv). simpl.
      rewrite (Hcount _ _ Hv) in Hv.
      by apply list_elem_of_lookup_1 in Hv. }
    split; [done|]. split.
    + intros v. destruct (decide (v ∈ data)) as [Hv|Hv].
      * destruct (Hentry v Hv) as (j & Hj).
        destruct (Hall j _ Hj) as [Hle _]. simpl in Hle. lia.
      * destruct (occurrences v data) eqn:E; [lia|].
        exfalso. apply Hv, occurrences_pos. lia.
    + intros v Hne Htie.
      assert (Hv : v ∈ data).
      { apply occurrences_pos. rewrite Htie. by apply occurrences_pos. }
      destruct (Hentry v Hv) as (j & Hj).
      destruct (Hall j _ Hj) as [_ Hstrict]. simpl in Hstrict.
      assert (Hij : (i < j)%nat).
      { destruct (decide (i = j)) as [->|?].
        - rewrite Hi in Hj. injection Hj as ? ?. done.
        - destruct (decide (j < i)%nat); [|lia].
          specialize (Hstrict ltac:(done)). lia. }
      apply (Horder i j); [done| |done].
      rewrite list_lookup_fmap, Hj. done.
Qed.

(** ** Keyword classification *)

Section Search.
Implicit Types (p sub kw s : pystr).

Lemma startswith_spec p s : startswith p s = true ↔ ∃ post, s = p ++ post.
Proof.
  revert s. induction p as [|a p IH]; intros s; simpl.
  - split; [eauto|done].
  - destruct s as [|b s].
    + split; [done|]. intros (post & ?). done.
    + rewrite andb_true_iff, N.eqb_eq, IH. split.
      * intros [-> (post & ->)]. eauto.
      * intros (post & [= -> ->]). eauto.
Qed.

Lemma contains_spec sub s :
  contains sub s = true ↔ ∃ pre post, s = pre ++ sub ++ post.
Proof.
  induction s as [|b s IH]; simpl.
  - rewrite orb_false_r, startswith_spec. split.
    + intros (post & ->). by exists [], post.
    + intros (pre & post & H). symmetry in H.
      apply app_eq_nil in H as [-> H]. exists post. done.
  - rewrite orb_true_iff, startswith_spec, IH. split.
    + intros [(post & ->)|(pre & post & ->)].
      * by exists [], post.
      * by exists (b :: pre), post.
    + intros ([|c pre] & post & H).
      * left. by exists post.
      * right. injection H as -> ->. eauto.
Qed.

Lemma contains_lower kw s :
  lower kw = kw → contains kw (lower s) = true ↔ occurs_ci kw s.
Proof.
  intros Hkw. rewrite contains_spec. unfold occurs_ci, lower in *. split.
  - intros (pre & post & H).
    apply fmap_app_inv in H as (pre' & rest & -> & H & ->).
    symmetry in H.
    apply fmap_app_inv in H as (mid & post' & Hmid & -> & ->).
    exists pre', mid, post'. split; [done|]. congruence.
  - intros (pre & mid & post & -> & Hmid).
    exists (lower_cp <$> pre), (lower_cp <$> post).
    rewrite !fmap_app. congruence.
Qed.

Lemma existsb_mentions keywords s :
  Forall (λ kw, lower kw = kw) keywords →
  existsb (λ keyword, contains keyword (lower s)) keywords = true
  ↔ mentions keywords s.
Proof.
  intros Hall. rewrite existsb_exists. unfold mentions.
  rewrite Forall_forall in Hall. split.
  - intros (kw & Hin%list_elem_of_In & Hc). exists kw. split; [done|].
    by apply contains_lower; [apply Hall|].
  - intros (kw & Hin & Hc). exists kw. split; [by apply list_elem_of_In|].
    by apply contains_lower; [apply Hall|].
Qed.

Lemma str_in_list_spec x (xs : list pystr) :
  str_in_list x xs = true ↔ x ∈ xs.
Proof.
  unfold str_in_list, str_eqb. rewrite existsb_exists. split.
  - intros (y & Hin%list_elem_of_In & ->%bool_decide_eq_true). done.
  - intros Hin. exists x. split; [by apply list_elem_of_In|].
    by apply bool_decide_eq_true.
Qed.

End Search.

Section Classification.
Implicit Types (best_stat reason example_text : pystr).

Lemma answer_outcome_spec key best_stat reason :
  Forall (λ kw, lower kw = kw) (keywords key) →
  let o := answer_outcome key best_stat reason in
  (o = Correct ↔ best_stat ∈ stats key ∧ mentions (keywords key) reason)
  ∧ (o = PartiallyCorrect
     ↔ best_stat ∈ stats key ∧ ¬ mentions (keywords key) reason)
  ∧ (o = Incorrect ↔ best_stat ∉ stats key).
Proof.
  intros Hkw. unfold answer_outcome.
  pose proof (str_in_list_spec best_stat (stats key)) as Hstat.
  pose proof (existsb_mentions (keywords key) reason Hkw) as Hkey.
  destruct (str_in_list best_stat (stats key));
    destruct (existsb _ (keywords key)); simpl;
    (assert (Hs : true = true) by done); intuition congruence.
Qed.

Lemma example_appraisal_spec rule example_text :
  Forall (λ kw, lower kw = kw) (good_keywords rule) →
  Forall (λ kw, lower kw = kw) (bad_keywords rule) →
  let a := example_appraisal rule example_text in
  (a = Appropriate
   ↔ mentions (good_keywords rule) example_text
     ∧ ¬ mentions (bad_keywords rule) example_text)
  ∧ (a = PartiallyAppropriate
     ↔ mentions (good_keywords rule) example_text
       ∧ mentions (bad_keywords rule) example_text)
  ∧ (a = Inappropriate ↔ ¬ mentions (good_keywords rule) example_text).
Proof.
  intros Hg Hb. unfold example_appraisal.
  pose proof (existsb_mentions (good_keywords rule) example_text Hg) as Hgood.
  pose proof (existsb_mentions (bad_keywords rule) example_text Hb) as Hbad.
  destruct (existsb _ (good_keywords rule));
    destruct (existsb _ (bad_keywords rule)); simpl;
    (assert (Hs : true = true) by done); intuition congruence.
Qed.

Lemma dict_get_elem_of {K V : Type} `{EqDecision K}
    (d : list (K * V)) (k : K) (v : V) :
  dict_get d k = Some v → (k, v) ∈ d.
Proof.
  induction d as [|[k' v'] d IH]; simpl; [done|].
  case_decide as Hk.
  - intros [= ->]. subst. left.
  - intros Hget. right. by apply IH.
Qed.

Lemma correct_answers_caseless :
  Forall (λ item, Forall (λ kw, lower kw = kw) (keywords item.2))
         correct_answers.
Proof. repeat constructor. Qed.

Lemma analysis_rules_caseless :
  Forall (λ item, Forall (λ kw, lower kw = kw) (good_keywords item.2)
                  ∧ Forall (λ kw, lower kw = kw) (bad_keywords item.2))
         analysis_rules.
Proof. repeat constructor. Qed.

End Classification.

(** C2: for a scenario of the answer table, every label and every reason,
    the local check answers [Correct] exactly when the label is accepted
    and the reason holds a keyword up to case, [PartiallyCorrect] exactly
    when the label is accepted and no keyword is held, and [Incorrect]
    exactly when the label is not accepted.  For scenario 1: "중앙값" or
    "최빈값" with "이상치" in the reason is correct, "중앙값" with no
    keyword is partially correct, "평균" is incorrect whatever the
    reason. *)
Theorem C2_answer_classification
    (scenario_id : Z) (key : answer_key) (best_stat reason : pystr) :
  dict_get correct_answers scenario_id = Some key →
  let o := answer_outcome key best_stat reason in
  (o = Correct ↔ best_stat ∈ stats key ∧ mentions (keywords key) reason)
  ∧ (o = PartiallyCorrect
     ↔ best_stat ∈ stats key ∧ ¬ mentions (keywords key) reason)
  ∧ (o = Incorrect ↔ best_stat ∉ stats key)
  ∧ (scenario_id = 1 →
     (best_stat = py "중앙값" ∨ best_stat = py "최빈값" →
      occurs_ci (py "이상치") reason → o = Correct)
     ∧ (best_stat = py "중앙값" → ¬ mentions (keywords key) reason →
        o = PartiallyCorrect)
     ∧ (best_stat = py "평균" → o = Incorrect)).
Proof.
  intros Hkey o.
  assert (Hcase : Forall (λ kw, lower kw = kw) (keywords key)).
  { apply dict_get_elem_of in Hkey.
    pose proof correct_answers_caseless as Hall.
    rewrite Forall_forall in Hall. apply (Hall _ Hkey). }
  destruct (answer_outcome_spec key best_stat reason Hcase)
    as (Hc & Hp & Hi). fold o in Hc, Hp, Hi.
  split; [done|]. split; [done|]. split; [done|].
  intros ->. injection Hkey as <-. cbn [stats keywords] in *.
  split; [|split].
  - intros Hlabel Hreason. apply Hc. split.
    + destruct Hlabel as [-> | ->]; compute_done.
    + exists (py "이상치"). split; [compute_done|done].
  - intros -> Hnone. apply Hp. split; [compute_done|done].
  - intros ->. apply Hi. compute_done.
Qed.

Lemma C2_answer_classification_witness :
  dict_get correct_answers 1
  = Some {| stats := [py "중앙값"; py "최빈값"];
            keywords := [py "극단값"; py "이상치"; py "왜곡"; py "영향";
                         py "극단"] |}
  ∧ answer_outcome
      {| stats := [py "중앙값"; py "최빈값"];
         keywords := [py "극단값"; py "이상치"; py "왜곡"; py "영향";
                      py "극단"] |}
      (py "최빈값") (py "23은 이상치라서 평균이 왜곡돼요") = Correct.
Proof.
  split; [reflexivity|].
  destruct (C2_answer_classification 1 _ (py "최빈값")
              (py "23은 이상치라서 평균이 왜곡돼요") eq_refl)
    as (_ & _ & _ & Hone).
  destruct (Hone eq_refl) as (Hcorrect & _).
  apply Hcorrect.
  - right. reflexivity.
  - exists (py "23은 "), (py "이상치"), (py "라서 평균이 왜곡돼요").
    split; vm_compute; reflexivity.
Defined.

Lemma analysis_rules_mean :
  dict_get analysis_rules (py "mean")
  = Some {| good_keywords := [py "고르게"; py "균등"; py "일정"; py "비슷";
                              py "평균적"; py "고루"; py "분포"];
            bad_keywords := [py "극단"; py "이상치"; py "튀는"; py "치우쳐";
                             py "빈도"] |}.
Proof. vm_compute. reflexivity. Qed.

(** C3: for a statistic of the rule table and every example text, the
    local check answers [Appropriate] exactly when a good keyword and no
    bad keyword is held, [PartiallyAppropriate] exactly when a good and a
    bad keyword are held, and [Inappropriate] exactly when no good keyword
    is held.  For "mean": "고르게" without bad keyword is appropriate,
    "고르게" with "빈도" is partially appropriate, a text with neither
    kind of keyword is inappropriate. *)
Theorem C3_example_classification
    (stat_key : pystr) (rule : rule) (example_text : pystr) :
  dict_get analysis_rules stat_key = Some rule →
  let a := example_appraisal rule example_text in
  (a = Appropriate
   ↔ mentions (good_keywords rule) example_text
     ∧ ¬ mentions (bad_keywords rule) example_text)
  ∧ (a = PartiallyAppropriate
     ↔ mentions (good_keywords rule) example_text
       ∧ mentions (bad_keywords rule) example_text)
  ∧ (a = Inappropriate ↔ ¬ mentions (good_keywords rule) example_text)
  ∧ (stat_key = py "mean" →
     (occurs_ci (py "고르게") example_text →
      ¬ mentions (bad_keywords rule) example_text → a = Appropriate)
     ∧ (occurs_ci (py "고르게") example_text →
        occurs_ci (py "빈도") example_text → a = PartiallyAppropriate)
     ∧ (¬ mentions (good_keywords rule) example_text →
        ¬ mentions (bad_keywords rule) example_text → a = Inappropriate)).
Proof.
  intros Hrule a.
  assert (Hcase : Forall (λ kw, lower kw = kw) (good_keywords rule)
                  ∧ Forall (λ kw, lower kw = kw) (bad_keywords rule)).
  { apply dict_get_elem_of in Hrule.
    pose proof analysis_rules_caseless as Hall.
    rewrite Forall_forall in Hall. apply (Hall _ Hrule). }
  destruct Hcase as [Hg Hb].
  destruct (example_appraisal_spec rule example_text Hg Hb)
    as (Ha & Hp & Hi). fold a in Ha, Hp, Hi.
  split; [done|]. split; [done|]. split; [done|].
  intros ->. rewrite analysis_rules_mean in Hrule.
  injection Hrule as <-. cbn [good_keywords bad_keywords] in *.
  split; [|split].
  - intros Hgood Hnobad. apply Ha. split; [|done].
    exists (py "고르게"). split; [compute_done|done].
  - intros Hgood Hbad. apply Hp. split.
    + exists (py "고르게"). split; [compute_done|done].
    + exists (py "빈도"). split; [compute_done|done].
  - intros Hnogood _. by apply Hi.
Qed.

Lemma C3_example_classification_witness :
  ∃ rule, dict_get analysis_rules (py "mean") = Some rule
          ∧ example_appraisal rule
              (py "점수가 고르게 퍼져 있고 빈도는 상관없을 때")
            = PartiallyAppropriate.
Proof.
  eexists. split; [vm_compute; reflexivity|].
  assert (Hrule : dict_get analysis_rules (py "mean") = Some
    {| good_keywords := [py "고르게"; py "균등"; py "일정"; py "비슷";
                         py "평균적"; py "고루"; py "분포"];
       bad_keywords := [py "극단"; py "이상치"; py "튀는"; py "치우쳐";
                        py "빈도"] |}) by (vm_compute; reflexivity).
  destruct (C3_example_classification (py "mean") _
              (py "점수가 고르게 퍼져 있고 빈도는 상관없을 때") Hrule)
    as (_ & _ & _ & Hmean).
  destruct (Hmean eq_refl) as (_ & Hpartial & _).
  apply Hpartial.
  - exists (py "점수가 "), (py "고르게"), (py " 퍼져 있고 빈도는 상관없을 때").
    split; vm_compute; reflexivity.
  - exists (py "점수가 고르게 퍼져 있고 "), (py "빈도"), (py "는 상관없을 때").
    split; vm_compute; reflexivity.
Defined.

(** *** The keyword search does not depend on the case table *)

Section CaseTable.
Implicit Types (kw s : pystr).

Lemma startswith_caseless_head kw d s :
  kw ≠ [] → Forall (λ c, caseless c = true) kw → caseless d = false →
  startswith kw (d :: s) = false.
Proof.
  destruct kw as [|a kw]; [done|]. intros _ Hkw Hd. simpl.
  apply Forall_cons in Hkw as [Ha _].
  destruct (N.eqb_spec a d) as [->|]; [congruence|done].
Qed.

Lemma contains_skip kw blk s :
  kw ≠ [] → Forall (λ c, caseless c = true) kw →
  Forall (λ c, caseless c = false) blk →
  contains kw (blk ++ s) = contains kw s.
Proof.
  intros Hne Hkw. induction 1 as [|d blk Hd _ IH]; [done|].
  simpl app. cbn [contains].
  by rewrite startswith_caseless_head, IH.
Qed.

Lemma startswith_case_image kw s s' :
  Forall (λ c, caseless c = true) kw → case_image s s' →
  startswith kw s' = startswith kw s.
Proof.
  intros Hkw Himg. revert kw Hkw.
  induction Himg as [|c s s' Hc _ IH|c d blk s s' Hc Hblk _ IH];
    intros kw Hkw.
  - done.
  - destruct kw as [|a kw]; [done|]. simpl.
    apply Forall_cons in Hkw as [_ Hkw]. by rewrite IH.
  - destruct kw as [|a kw]; [done|].
    apply Forall_cons in Hblk as [Hd _].
    rewrite startswith_caseless_head by done.
    simpl app. by rewrite startswith_caseless_head.
Qed.

(** Whatever the case table does to cased code points, a caseless
    keyword is found in the lowered text exactly when it is found in
    the text. *)
Lemma contains_case_image kw s s' :
  kw ≠ [] → Forall (λ c, caseless c = true) kw → case_image s s' →
  contains kw s' = contains kw s.
Proof.
  intros Hne Hkw Himg.
  induction Himg as [|c s s' Hc Himg IH|c d blk s s' Hc Hblk Himg IH].
  - done.
  - cbn [contains]. rewrite IH. f_equal.
    apply startswith_case_image; [done|]. by constructor.
  - rewrite (contains_skip kw (d :: blk) s') by done.
    change (c :: s) with ([c] ++ s).
    rewrite (contains_skip kw [c] s); [done..|].
    by constructor.
Qed.

Lemma lower_case_image s : case_image s (lower s).
Proof.
  induction s as [|c s IH]; [constructor|].
  unfold lower. rewrite fmap_cons. fold (lower s).
  destruct (caseless c) eqn:Hc.
  - replace (lower_cp c) with c; [by constructor|].
    unfold lower_cp, caseless in *.
    destruct (N.leb_spec 65 c), (N.leb_spec c 90); simpl; try done.
    exfalso.
    destruct (N.eqb_spec c 32); [lia|].
    destruct (N.leb_spec 44032 c); [lia|]. done.
  - apply (case_image_map c (lower_cp c) []); [done| |done].
    constructor; [|constructor].
    unfold lower_cp, caseless in *.
    destruct (N.leb_spec 65 c), (N.leb_spec c 90); simpl; try done.
    destruct (N.eqb_spec (c + 32) 32); [lia|].
    destruct (N.leb_spec 44032 (c + 32)); [lia|]. done.
Qed.

Lemma keywords_caseless :
  Forall (λ item, Forall (λ kw, kw ≠ [] ∧ Forall (λ c, caseless c = true) kw)
                         (keywords item.2)) correct_answers
  ∧ Forall (λ item,
      Forall (λ kw, kw ≠ [] ∧ Forall (λ c, caseless c = true) kw)
             (good_keywords item.2 ++ bad_keywords item.2)) analysis_rules.
Proof. split; repeat constructor; done. Qed.

(** The page's search in [lower reason] agrees with the search in any
    other case image of [reason], Python's own included. *)
Lemma keyword_search_any_case_table kw s s' :
  kw ≠ [] → Forall (λ c, caseless c = true) kw → case_image s s' →
  contains kw (lower s) = contains kw s'.
Proof.
  intros Hne Hkw Himg.
  rewrite (contains_case_image kw s s') by done.
  apply contains_case_image; [done..|apply lower_case_image].
Qed.

End CaseTable.

(** ** Handlers and runs *)

Lemma on_submit_eq scenario_id key best_stat reason :
  dict_get correct_answers scenario_id = Some key →
  StreamlitApp.on_submit scenario_id best_stat reason
  = if answer_given best_stat reason
    then λ s, (Ok (), set_answer scenario_id s,
               [AnswerFeedback scenario_id
                  (answer_outcome key best_stat reason)])
    else λ s, (Ok (), s, [AnswerInputError scenario_id]).
Proof.
  intros Hkey. unfold StreamlitApp.on_submit.
  destruct (answer_given best_stat reason); [|done].
  unfold mbind, script_bind, bind, eval. rewrite Hkey. done.
Qed.

Lemma on_check_eq stat_key rule example_text :
  dict_get analysis_rules stat_key = Some rule →
  StreamlitApp.on_check stat_key example_text
  = if example_given example_text
    then λ s, (Ok (), set_example stat_key s,
               [ExampleFeedback stat_key
                  (example_appraisal rule example_text)])
    else λ s, (Ok (), s, [ExampleInputError stat_key]).
Proof.
  intros Hkey. unfold StreamlitApp.on_check.
  destruct (example_given example_text); [|done].
  unfold mbind, script_bind, bind, eval. rewrite Hkey. done.
Qed.

Lemma scenario_ids : Stats.scenarios.*1 = [1; 2].
Proof. reflexivity. Qed.

Lemma stat_keys : stat_types.*1 = [py "mean"; py "median"; py "mode"].
Proof. reflexivity. Qed.

Lemma scenario_has_key scenario_id :
  scenario_id ∈ Stats.scenarios.*1 →
  ∃ key, dict_get correct_answers scenario_id = Some key.
Proof.
  rewrite scenario_ids, !elem_of_cons, elem_of_nil.
  intros [->|[->|[]]]; eexists; reflexivity.
Qed.

Lemma stat_has_rule stat_key :
  stat_key ∈ stat_types.*1 →
  ∃ rule, dict_get analysis_rules stat_key = Some rule.
Proof.
  rewrite stat_keys, !elem_of_cons, elem_of_nil.
  intros [->|[->|[->|[]]]]; eexists; vm_compute; reflexivity.
Qed.

Lemma calculate_stats_scenarios :
  Forall (λ item, is_Some (Stats.calculate_stats (Stats.data item.2)))
         Stats.scenarios.
Proof. repeat constructor; vm_compute; eauto. Qed.

Lemma st_button_clicked w b b' :
  clicked w = Some b → st_button w b' = bool_decide (b = b').
Proof.
  intros Hc. unfold st_button. rewrite Hc.
  apply bool_decide_ext. split; congruence.
Qed.

Lemma st_button_idle w b' : clicked w = None → st_button w b' = false.
Proof. intros Hc. unfold st_button. rewrite Hc. done. Qed.

(** Tactics that run a piece of script on a state: unfold the monad,
    decide the closed button tests, and check that a page holds no element
    of the progress check. *)
Ltac run_script_steps :=
  cbv beta iota zeta delta
    [mbind script_bind bind mret script_ret ret emit when eval get modify
     raise for_each app fst snd state_of page_of result_of].

Ltac app_steps :=
  cbv beta iota zeta delta
    [mbind script_bind bind mret script_ret ret emit when eval get modify
     raise for_each fst snd state_of page_of result_of try_except
     App.has_client App.set_USE_AI App.in_session App.USE_AI App.session
     option_bind andb negb].

Ltac decide_buttons :=
  repeat first [ rewrite bool_decide_true by compute_done
               | rewrite bool_decide_false by compute_done ].

Ltac quiet :=
  repeat first
    [ apply Forall_nil_2
    | apply Forall_cons_2; [reflexivity|]
    | apply Forall_app_2
    | assumption ].

Ltac quiet_page := eexists; split; [reflexivity|quiet].

Ltac app_page :=
  refine (ex_intro _ _ (ex_intro _ _ (conj _ eq_refl))); quiet.

Lemma submit_decide scenario_id i :
  bool_decide (submit scenario_id = submit i) = bool_decide (scenario_id = i).
Proof. apply bool_decide_ext. split; congruence. Qed.

Lemma check_decide stat_key k :
  bool_decide (check stat_key = check k) = bool_decide (stat_key = k).
Proof. apply bool_decide_ext. split; congruence. Qed.

Lemma submit_check_decide scenario_id k :
  bool_decide (submit scenario_id = check k) = false
  ∧ bool_decide (check k = submit scenario_id) = false.
Proof. split; by apply bool_decide_false. Qed.

Lemma scenario_id_cases scenario_id :
  (scenario_id = 1 ∨ scenario_id = 2)
  ∨ (bool_decide (scenario_id = 1) = false
     ∧ bool_decide (scenario_id = 2) = false
     ∧ bool_decide (scenario_id ∈ [1; 2]) = false).
Proof.
  destruct (decide (scenario_id = 1)); [by left; left|].
  destruct (decide (scenario_id = 2)); [by left; right|].
  right. rewrite !bool_decide_false; [done| |done..].
  rewrite !elem_of_cons, elem_of_nil. tauto.
Qed.

Lemma stat_key_cases (stat_key : pystr) :
  (stat_key = py "mean" ∨ stat_key = py "median" ∨ stat_key = py "mode")
  ∨ (bool_decide (stat_key = py "mean") = false
     ∧ bool_decide (stat_key = py "median") = false
     ∧ bool_decide (stat_key = py "mode") = false
     ∧ bool_decide (stat_key ∈ [py "mean"; py "median"; py "mode"]) = false).
Proof.
  destruct (decide (stat_key = py "mean")); [by left; left|].
  destruct (decide (stat_key = py "median")); [by left; right; left|].
  destruct (decide (stat_key = py "mode")); [by left; right; right|].
  right. rewrite !bool_decide_false; [done| |done..].
  rewrite !elem_of_cons, elem_of_nil. tauto.
Qed.

Lemma scenario_loop w s :
  ∃ out,
    for_each Stats.scenarios (StreamlitApp.scenario_block w) s
    = (Ok (),
       match completes w with
       | Some (submit scenario_id) => set_answer scenario_id s
       | _ => s
       end, out)
    ∧ Forall (λ o, is_progress o = false) out.
Proof.
  pose proof calculate_stats_scenarios as Hstats.
  unfold Stats.scenarios in *.
  apply Forall_cons in Hstats as [[st1 H1] Hstats].
  apply Forall_cons in Hstats as [[st2 H2] _].
  cbn [fst snd Stats.data] in H1, H2.
  unfold completes. rewrite scenario_ids, stat_keys.
  cbn [for_each]. unfold StreamlitApp.scenario_block. cbn [fst snd Stats.data].
  rewrite H1, H2.
  rewrite (on_submit_eq 1 _ _ _ eq_refl), (on_submit_eq 2 _ _ _ eq_refl).
  destruct (clicked w) as [[scenario_id|stat_key]|] eqn:Hc.
  - rewrite !(st_button_clicked w _ _ Hc), !submit_decide.
    destruct (scenario_id_cases scenario_id) as [[-> | ->]|(-> & -> & ->)].
    + decide_buttons. run_script_steps.
      destruct (answer_given _ _); run_script_steps; quiet_page.
    + decide_buttons. run_script_steps.
      destruct (answer_given _ _); run_script_steps; quiet_page.
    + run_script_steps. quiet_page.
  - rewrite !(st_button_clicked w _ _ Hc).
    rewrite !(proj2 (submit_check_decide _ _)).
    destruct (_ && _); run_script_steps; quiet_page.
  - rewrite !(st_button_idle w _ Hc). run_script_steps. quiet_page.
Qed.

Lemma stat_loop w s :
  ∃ out,
    for_each stat_types (StreamlitApp.stat_block w) s
    = (Ok (),
       match completes w with
       | Some (check stat_key) => set_example stat_key s
       | _ => s
       end, out)
    ∧ Forall (λ o, is_progress o = false) out.
Proof.
  unfold completes. rewrite scenario_ids, stat_keys. unfold stat_types.
  cbn [for_each]. unfold StreamlitApp.stat_block. cbn [fst snd].
  destruct (stat_has_rule (py "mean")) as [r1 H1]; [compute_done|].
  destruct (stat_has_rule (py "median")) as [r2 H2]; [compute_done|].
  destruct (stat_has_rule (py "mode")) as [r3 H3]; [compute_done|].
  rewrite (on_check_eq _ _ _ H1), (on_check_eq _ _ _ H2),
    (on_check_eq _ _ _ H3).
  destruct (clicked w) as [[scenario_id|stat_key]|] eqn:Hc.
  - rewrite !(st_button_clicked w _ _ Hc).
    rewrite !(proj1 (submit_check_decide _ _)).
    destruct (_ && _); run_script_steps; quiet_page.
  - rewrite !(st_button_clicked w _ _ Hc), !check_decide.
    destruct (stat_key_cases stat_key)
      as [[-> | [-> | ->]]|(-> & -> & -> & ->)].
    + decide_buttons. run_script_steps.
      destruct (example_given _); run_script_steps; quiet_page.
    + decide_buttons. run_script_steps.
      destruct (example_given _); run_script_steps; quiet_page.
    + decide_buttons. run_script_steps.
      destruct (example_given _); run_script_steps; quiet_page.
    + run_script_steps. quiet_page.
  - rewrite !(st_button_idle w _ Hc). run_script_steps. quiet_page.
Qed.

Lemma mark_completes w s :
  mark (completes w) s
  = match completes w with
    | Some (check stat_key) =>
        set_example stat_key
          match completes w with
          | Some (submit scenario_id) => set_answer scenario_id s
          | _ => s
          end
    | _ => match completes w with
           | Some (submit scenario_id) => set_answer scenario_id s
           | _ => s
           end
    end.
Proof. by destruct (completes w) as [[?|?]|]. Qed.

Lemma progress_block_eq {St : Type} (session : session_state) (s : St) :
  progress_block session s
  = if bool_decide (completed_activities session ≤ total_activities)%nat
    then (Ok (), s, progress_page (completed_activities session))
    else (Raised, s, []).
Proof.
  unfold progress_block, progress_page.
  generalize (completed_activities session). intros n.
  do 6 (destruct n as [|n]; [reflexivity|]).
  rewrite bool_decide_false by (unfold total_activities; lia).
  unfold st_progress.
  assert (Hr : Qle_bool (ratio (S (S (S (S (S (S n)))))) total_activities) 1
               = false).
  { apply not_true_is_false. rewrite Qle_bool_iff.
    unfold ratio, total_activities, Qle, Qdiv, Qmult, Qinv, inject_Z.
    simpl Qnum. simpl Qden. lia. }
  rewrite Hr, andb_false_r. reflexivity.
Qed.

Lemma run_script_eq w s :
  ∃ blocks,
    Forall (λ o, is_progress o = false) blocks
    ∧ StreamlitApp.run_script w s
      = match progress_block (mark (completes w) s) (mark (completes w) s) with
        | (r, s', out) => (r, s', blocks ++ out)
        end.
Proof.
  unfold StreamlitApp.run_script.
  destruct (scenario_loop w s) as (out1 & Hloop1 & Hq1).
  destruct (stat_loop w
              match completes w with
              | Some (submit scenario_id) => set_answer scenario_id s
              | _ => s
              end) as (out2 & Hloop2 & Hq2).
  exists (out1 ++ out2). split; [by apply Forall_app|].
  rewrite mark_completes.
  unfold mbind, script_bind, bind. rewrite Hloop1, Hloop2. unfold get.
  destruct (progress_block _ _) as [[r s'] out].
  by rewrite app_nil_l, app_assoc.
Qed.

Lemma session_after_from page ws :
  session_after page ws = session_from page fresh_session ws.
Proof. done. Qed.

Section Marking.
Implicit Types (s : session_state) (w : widgets).

Lemma completed_activities_mark b s :
  (completed_activities s ≤ completed_activities (mark b s)
   ≤ completed_activities s + 1)%nat.
Proof.
  unfold completed_activities.
  destruct b as [[scenario_id|stat_key]|]; simpl; [| |lia].
  - rewrite map_size_insert. destruct (_ !! _); simpl; lia.
  - rewrite map_size_insert. destruct (_ !! _); simpl; lia.
Qed.

Lemma mark_again b s :
  completed_activities (mark b (mark b s)) = completed_activities (mark b s).
Proof.
  unfold completed_activities.
  destruct b as [[scenario_id|stat_key]|]; simpl; [| |done].
  - by rewrite insert_insert_eq.
  - by rewrite insert_insert_eq.
Qed.

Lemma completes_scenario_known w scenario_id :
  completes w = Some (submit scenario_id) → scenario_id ∈ Stats.scenarios.*1.
Proof.
  unfold completes.
  destruct (clicked w) as [[i|k]|]; [| |done].
  - destruct (bool_decide _) eqn:Hin; simpl; [|done].
    destruct (answer_given _ _); [|done].
    intros [= ->]. by apply bool_decide_eq_true in Hin.
  - by destruct (_ && _).
Qed.

Lemma completes_stat_known w stat_key :
  completes w = Some (check stat_key) → stat_key ∈ stat_types.*1.
Proof.
  unfold completes.
  destruct (clicked w) as [[i|k]|]; [| |done].
  - by destruct (_ && _).
  - destruct (bool_decide _) eqn:Hin; simpl; [|done].
    destruct (example_given _); [|done].
    intros [= ->]. by apply bool_decide_eq_true in Hin.
Qed.

Lemma completed_scenarios_known ws :
  completed_scenarios ws ⊆ list_to_set (Stats.scenarios.*1).
Proof.
  intros i. unfold completed_scenarios.
  rewrite !elem_of_list_to_set, list_elem_of_omap.
  intros (w & _ & Hw). unfold completed_scenario in Hw.
  destruct (completes w) as [[j|k]|] eqn:Hc; [|done..].
  injection Hw as ->. by eapply completes_scenario_known.
Qed.

Lemma completed_stat_types_known ws :
  completed_stat_types ws ⊆ list_to_set (stat_types.*1).
Proof.
  intros i. unfold completed_stat_types.
  rewrite !elem_of_list_to_set, list_elem_of_omap.
  intros (w & _ & Hw). unfold completed_stat_type in Hw.
  destruct (completes w) as [[j|k]|] eqn:Hc; [done| |done].
  injection Hw as ->. by eapply completes_stat_known.
Qed.

Lemma completed_sizes ws :
  (size (completed_scenarios ws) ≤ 2 ∧ size (completed_stat_types ws) ≤ 3)%nat.
Proof.
  split.
  - transitivity (size (list_to_set (C := gset Z) (Stats.scenarios.*1))).
    + apply subseteq_size, completed_scenarios_known.
    + rewrite size_list_to_set; [done|]. rewrite scenario_ids. compute_done.
  - transitivity (size (list_to_set (C := gset pystr) (stat_types.*1))).
    + apply subseteq_size, completed_stat_types_known.
    + rewrite size_list_to_set; [done|]. rewrite stat_keys. compute_done.
Qed.

End Marking.

Section AnyPage.
Variable page : widgets → script session_state unit.
Hypothesis page_state : ∀ w s, state_of (page w s) = mark (completes w) s.

Lemma session_from_snoc s ws w :
  session_from page s (ws ++ [w])
  = mark (completes w) (session_from page s ws).
Proof. unfold session_from. by rewrite fold_left_app; simpl. Qed.

Lemma session_domains ws :
  dom (answers_submitted (session_after page ws)) = completed_scenarios ws
  ∧ dom (ai_examples_checked (session_after page ws))
    = completed_stat_types ws.
Proof.
  induction ws as [|w ws [IHa IHe]] using rev_ind.
  - split; apply dom_empty_L.
  - rewrite session_after_from, session_from_snoc, <- session_after_from.
    unfold completed_scenarios, completed_stat_types.
    rewrite !omap_app, !list_to_set_app_L.
    fold (completed_scenarios ws) (completed_stat_types ws).
    unfold completed_scenario, completed_stat_type. cbn [omap list_omap].
    destruct (completes w) as [[scenario_id|stat_key]|];
      cbn [mark set_answer set_example answers_submitted
           ai_examples_checked];
      rewrite ?dom_insert_L, ?list_to_set_cons, ?list_to_set_nil,
        ?union_empty_r_L, IHa, IHe;
      split; try done; apply union_comm_L.
Qed.

Lemma count_distinct ws :
  completed_activities (session_after page ws)
  = (size (completed_scenarios ws) + size (completed_stat_types ws))%nat.
Proof.
  destruct (session_domains ws) as [<- <-].
  unfold completed_activities. by rewrite !size_dom.
Qed.

Lemma count_in_range ws :
  (completed_activities (session_after page ws) ≤ total_activities)%nat.
Proof.
  rewrite count_distinct. pose proof (completed_sizes ws).
  unfold total_activities. lia.
Qed.

Lemma count_never_drops s ws :
  (completed_activities s ≤ completed_activities (session_from page s ws))%nat.
Proof.
  induction ws as [|w ws IH] using rev_ind; [done|].
  rewrite session_from_snoc.
  pose proof (completed_activities_mark (completes w) (session_from page s ws)).
  lia.
Qed.

End AnyPage.

Lemma streamlit_page_state w s :
  state_of (StreamlitApp.run_script w s) = mark (completes w) s.
Proof.
  destruct (run_script_eq w s) as (blocks & _ & ->).
  rewrite progress_block_eq. by case_bool_decide.
Qed.

(** *** The page with a remote judge *)

Lemma app_on_submit_eq client scenario_id key best_stat reason g :
  dict_get correct_answers scenario_id = Some key →
  ∃ u out,
    Forall (λ o, is_progress o = false) out
    ∧ App.on_submit client scenario_id best_stat reason g
      = if answer_given best_stat reason
        then (Ok (),
              {| App.session := set_answer scenario_id (App.session g);
                 App.USE_AI := u |}, out)
        else (Ok (), g, [AnswerInputError scenario_id]).
Proof.
  intros Hkey. unfold App.on_submit.
  destruct (answer_given best_stat reason);
    [|by exists true, []].
  destruct g as [s [|]], client as [c|]; app_steps.
  - destruct (App.judge_answer c scenario_id best_stat reason);
      app_steps; rewrite ?Hkey; app_steps; app_page.
  - app_page.
  - rewrite Hkey. app_page.
  - rewrite Hkey. app_page.
Qed.

Lemma app_on_check_eq client stat_key rule example_text g :
  dict_get analysis_rules stat_key = Some rule →
  ∃ u out,
    Forall (λ o, is_progress o = false) out
    ∧ App.on_check client stat_key example_text g
      = if example_given example_text
        then (Ok (),
              {| App.session := set_example stat_key (App.session g);
                 App.USE_AI := u |}, out)
        else (Ok (), g, [ExampleInputError stat_key]).
Proof.
  intros Hkey. unfold App.on_check.
  destruct (example_given example_text);
    [|by exists true, []].
  destruct g as [s [|]], client as [c|]; app_steps.
  - destruct (App.judge_example c stat_key example_text);
      app_steps; rewrite ?Hkey; app_steps; app_page.
  - app_page.
  - rewrite Hkey. app_page.
  - rewrite Hkey. app_page.
Qed.

Lemma app_scenario_loop client w g :
  ∃ u out,
    Forall (λ o, is_progress o = false) out
    ∧ for_each Stats.scenarios (App.scenario_block client w) g
      = (Ok (),
         {| App.session :=
              match completes w with
              | Some (submit scenario_id) =>
                  set_answer scenario_id (App.session g)
              | _ => App.session g
              end;
            App.USE_AI := u |}, out).
Proof.
  pose proof calculate_stats_scenarios as Hstats.
  unfold Stats.scenarios in *.
  apply Forall_cons in Hstats as [[st1 H1] Hstats].
  apply Forall_cons in Hstats as [[st2 H2] _].
  cbn [fst snd Stats.data] in H1, H2.
  unfold completes. rewrite scenario_ids, stat_keys.
  cbn [for_each]. unfold App.scenario_block. cbn [fst snd Stats.data].
  rewrite H1, H2. destruct g as [s u0].
  destruct (clicked w) as [[scenario_id|stat_key]|] eqn:Hc.
  - rewrite !(st_button_clicked w _ _ Hc), !submit_decide.
    destruct (scenario_id_cases scenario_id) as [[-> | ->]|(-> & -> & ->)].
    + decide_buttons. app_steps.
      destruct (app_on_submit_eq client 1 _ (stat_select w 1) (reason w 1)
                  {| App.session := s; App.USE_AI := u0 |} eq_refl)
        as (u & out & Hq & ->).
      destruct (answer_given _ _); app_steps; app_page.
    + decide_buttons. app_steps.
      destruct (app_on_submit_eq client 2 _ (stat_select w 2) (reason w 2)
                  {| App.session := s; App.USE_AI := u0 |} eq_refl)
        as (u & out & Hq & ->).
      destruct (answer_given _ _); app_steps; app_page.
    + app_steps. app_page.
  - rewrite !(st_button_clicked w _ _ Hc).
    rewrite (proj2 (submit_check_decide 1 stat_key)),
      (proj2 (submit_check_decide 2 stat_key)).
    destruct (_ && _); app_steps; app_page.
  - rewrite !(st_button_idle w _ Hc). app_steps. app_page.
Qed.

Lemma app_stat_loop client w g :
  ∃ u out,
    Forall (λ o, is_progress o = false) out
    ∧ for_each stat_types (App.stat_block client w) g
      = (Ok (),
         {| App.session :=
              match completes w with
              | Some (check stat_key) => set_example stat_key (App.session g)
              | _ => App.session g
              end;
            App.USE_AI := u |}, out).
Proof.
  unfold completes. rewrite scenario_ids, stat_keys. unfold stat_types.
  cbn [for_each]. unfold App.stat_block. cbn [fst snd].
  destruct (stat_has_rule (py "mean")) as [r1 H1]; [compute_done|].
  destruct (stat_has_rule (py "median")) as [r2 H2]; [compute_done|].
  destruct (stat_has_rule (py "mode")) as [r3 H3]; [compute_done|].
  destruct g as [s u0].
  destruct (clicked w) as [[scenario_id|stat_key]|] eqn:Hc.
  - rewrite !(st_button_clicked w _ _ Hc).
    rewrite (proj1 (submit_check_decide scenario_id (py "mean"))),
      (proj1 (submit_check_decide scenario_id (py "median"))),
      (proj1 (submit_check_decide scenario_id (py "mode"))).
    destruct (_ && _); app_steps; app_page.
  - rewrite !(st_button_clicked w _ _ Hc), !check_decide.
    destruct (stat_key_cases stat_key)
      as [[-> | [-> | ->]]|(-> & -> & -> & ->)].
    + decide_buttons. app_steps.
      destruct (app_on_check_eq client _ _ (example w (py "mean"))
                  {| App.session := s; App.USE_AI := u0 |} H1)
        as (u & out & Hq & ->).
      destruct (example_given _); app_steps; app_page.
    + decide_buttons. app_steps.
      destruct (app_on_check_eq client _ _ (example w (py "median"))
                  {| App.session := s; App.USE_AI := u0 |} H2)
        as (u & out & Hq & ->).
      destruct (example_given _); app_steps; app_page.
    + decide_buttons. app_steps.
      destruct (app_on_check_eq client _ _ (example w (py "mode"))
                  {| App.session := s; App.USE_AI := u0 |} H3)
        as (u & out & Hq & ->).
      destruct (example_given _); app_steps; app_page.
    + app_steps. app_page.
  - rewrite !(st_button_idle w _ Hc). app_steps. app_page.
Qed.

Lemma app_run_eq client w s :
  ∃ blocks,
    Forall (λ o, is_progress o = false) blocks
    ∧ App.run client w s
      = match progress_block (mark (completes w) s) (mark (completes w) s) with
        | (r, s', out) => (r, s', blocks ++ out)
        end.
Proof.
  unfold App.run, App.run_script.
  unfold mbind, script_bind, bind, modify, get, emit.
  destruct (app_scenario_loop client w
              (App.set_USE_AI (App.has_client client)
                 {| App.session := s; App.USE_AI := false |}))
    as (u1 & out1 & Hq1 & ->).
  match goal with
  | |- context [for_each stat_types _ ?g] =>
      destruct (app_stat_loop client w g) as (u2 & out2 & Hq2 & ->)
  end.
  cbn [App.session App.set_USE_AI]. rewrite <- mark_completes.
  rewrite !progress_block_eq.
  exists ([ModeBanner (App.has_client client)] ++ out1 ++ out2).
  split; [quiet|].
  case_bool_decide; cbn [App.session App.USE_AI App.set_USE_AI app];
    by rewrite <- !app_assoc.
Qed.

Lemma app_page_state client w s :
  state_of (App.run client w s) = mark (completes w) s.
Proof.
  destruct (app_run_eq client w s) as (blocks & _ & ->).
  rewrite progress_block_eq. by case_bool_decide.
Qed.

Section Handlers.
Implicit Types (s : session_state) (best_stat reason example_text : pystr).

Lemma truthy_spec (t : pystr) : truthy t = true ↔ t ≠ [].
Proof. by destruct t. Qed.

Lemma answer_given_spec best_stat reason :
  answer_given best_stat reason = true
  ↔ best_stat ≠ placeholder ∧ strip reason ≠ [].
Proof.
  unfold answer_given, str_eqb.
  rewrite andb_true_iff, negb_true_iff, bool_decide_eq_false, truthy_spec.
  done.
Qed.

Lemma example_given_spec example_text :
  example_given example_text = true ↔ strip example_text ≠ [].
Proof. apply truthy_spec. Qed.

Lemma is_page_state page : is_page page →
  ∀ w s, state_of (page w s) = mark (completes w) s.
Proof.
  intros [|client]; [apply streamlit_page_state|apply app_page_state].
Qed.

Lemma is_page_eq page : is_page page →
  ∀ w s, ∃ blocks,
    Forall (λ o, is_progress o = false) blocks
    ∧ page w s
      = match progress_block (mark (completes w) s) (mark (completes w) s)
        with (r, s', out) => (r, s', blocks ++ out) end.
Proof. intros [|client]; [apply run_script_eq|apply app_run_eq]. Qed.

Lemma reachable_session page s :
  reachable page s ↔ ∃ ws, s = session_after page ws.
Proof.
  split.
  - induction 1 as [|w s _ (ws & ->)]; [by exists []|].
    exists (ws ++ [w]). unfold session_after. by rewrite fold_left_app.
  - intros (ws & ->). induction ws as [|w ws IH] using rev_ind.
    + constructor.
    + unfold session_after. rewrite fold_left_app. simpl.
      by constructor.
Qed.

End Handlers.

(** C6: on the keyword-only page, a submission for a scenario of the page
    whose label is not the placeholder and whose reason is not empty once
    stripped marks that scenario in [answers_submitted], whatever the
    outcome shown; any other submission shows the input error and leaves
    the session state as it was.  Likewise a check of a statistic of the
    page marks it in [ai_examples_checked] when the text is not empty once
    stripped, and otherwise shows the input error and changes nothing.
    A whole run of the page changes the session state by the handler of
    the pressed button and by nothing else. *)
Theorem C6_submission_marks_or_rejects
    (scenario_id : Z) (stat_key best_stat reason example_text : pystr)
    (s : session_state) (w : widgets) :
  scenario_id ∈ Stats.scenarios.*1 → stat_key ∈ stat_types.*1 →
  (best_stat ≠ placeholder ∧ strip reason ≠ [] →
   (∃ o, StreamlitApp.on_submit scenario_id best_stat reason s
         = (Ok (), set_answer scenario_id s,
            [AnswerFeedback scenario_id o]))
   ∧ answers_submitted (set_answer scenario_id s) !! scenario_id = Some true)
  ∧ (¬ (best_stat ≠ placeholder ∧ strip reason ≠ []) →
     StreamlitApp.on_submit scenario_id best_stat reason s
     = (Ok (), s, [AnswerInputError scenario_id]))
  ∧ (strip example_text ≠ [] →
     (∃ a, StreamlitApp.on_check stat_key example_text s
           = (Ok (), set_example stat_key s, [ExampleFeedback stat_key a]))
     ∧ ai_examples_checked (set_example stat_key s) !! stat_key = Some true)
  ∧ (strip example_text = [] →
     StreamlitApp.on_check stat_key example_text s
     = (Ok (), s, [ExampleInputError stat_key]))
  ∧ state_of (StreamlitApp.run_script w s) = mark (completes w) s.
Proof.
  intros [key Hkey]%scenario_has_key [rule Hrule]%stat_has_rule.
  rewrite (on_submit_eq _ _ best_stat reason Hkey).
  rewrite (on_check_eq _ _ example_text Hrule).
  pose proof (answer_given_spec best_stat reason) as Ha.
  pose proof (example_given_spec example_text) as He.
  split_and!.
  - intros Hvalid. apply Ha in Hvalid as ->. split; [eauto|].
    apply lookup_insert_eq.
  - intros Hinvalid. destruct (answer_given best_stat reason); [|done].
    exfalso. apply Hinvalid, Ha. done.
  - intros Hvalid. apply He in Hvalid as ->. split; [eauto|].
    apply lookup_insert_eq.
  - intros Hempty. destruct (example_given example_text); [|done].
    exfalso. by apply (proj1 He).
  - apply streamlit_page_state.
Qed.

Lemma C6_submission_marks_or_rejects_witness :
  answers_submitted
    (state_of (StreamlitApp.on_submit 1 (py "평균") (py " 그냥요 ")
                 fresh_session)) !! 1 = Some true
  ∧ state_of (StreamlitApp.on_check (py "mode") (py "  ") fresh_session)
    = fresh_session.
Proof.
  destruct (C6_submission_marks_or_rejects 1 (py "mode") (py "평균")
              (py " 그냥요 ") (py "  ") fresh_session idle)
    as (Hvalid & _ & _ & Hempty & _); [compute_done..|].
  destruct Hvalid as [[o ->] Hmarked]; [split; compute_done|].
  rewrite Hempty by (vm_compute; reflexivity).
  split; [exact Hmarked|reflexivity].
Defined.

Section Repeats.
Implicit Types (s : session_state).

(** Submitting one scenario over and over marks it as soon as one of the
    submissions passes the check, and does nothing else. *)
Lemma resubmit_eq scenario_id answers s :
  scenario_id ∈ Stats.scenarios.*1 →
  resubmit scenario_id answers s
  = if existsb (λ a, answer_given a.1 a.2) answers
    then set_answer scenario_id s else s.
Proof.
  intros [key Hkey]%scenario_has_key.
  induction answers as [|a answers IH] using rev_ind; [done|].
  unfold resubmit. rewrite fold_left_app. cbn [fold_left].
  fold (resubmit scenario_id answers s).
  rewrite (on_submit_eq _ _ _ _ Hkey), IH, existsb_app. cbn [existsb].
  rewrite orb_false_r. unfold state_of.
  destruct (answer_given a.1 a.2), (existsb _ answers); cbn [fst snd orb];
    try done.
  unfold set_answer. cbn [answers_submitted ai_examples_checked].
  by rewrite insert_insert_eq.
Qed.

Lemma recheck_eq stat_key texts s :
  stat_key ∈ stat_types.*1 →
  recheck stat_key texts s
  = if existsb example_given texts then set_example stat_key s else s.
Proof.
  intros [rule Hrule]%stat_has_rule.
  induction texts as [|t texts IH] using rev_ind; [done|].
  unfold recheck. rewrite fold_left_app. cbn [fold_left].
  fold (recheck stat_key texts s).
  rewrite (on_check_eq _ _ _ Hrule), IH, existsb_app. cbn [existsb].
  rewrite orb_false_r. unfold state_of.
  destruct (example_given t), (existsb _ texts); cbn [fst snd orb];
    try done.
  unfold set_example. cbn [answers_submitted ai_examples_checked].
  by rewrite insert_insert_eq.
Qed.

Lemma completed_activities_one b :
  b ≠ None → completed_activities (mark b fresh_session) = 1%nat.
Proof.
  unfold completed_activities, fresh_session.
  destruct b as [[scenario_id|stat_key]|]; [| |done]; intros _;
    cbn [mark set_answer set_example answers_submitted ai_examples_checked];
    rewrite map_size_insert_None by apply lookup_empty;
    by rewrite !map_size_empty.
Qed.

End Repeats.

(** C7: submitting the same scenario of the page (checking the same
    statistic) any number of times, with inputs that pass the emptiness
    check or not, raises the completed count by at most one and never
    lowers it; when at least one of the submissions passes the check the
    count is the one a single marking gives, which is 1 from a fresh
    session.  Over a whole session the count is the number of distinct
    scenarios plus the number of distinct statistics completed. *)
Theorem C7_resubmission_counts_once
    (scenario_id : Z) (stat_key : pystr) (answers : list (pystr * pystr))
    (texts : list pystr) (s : session_state) (ws : list widgets) :
  scenario_id ∈ Stats.scenarios.*1 → stat_key ∈ stat_types.*1 →
  ((completed_activities s
    ≤ completed_activities (resubmit scenario_id answers s)
    ≤ completed_activities s + 1)%nat
   ∧ (existsb (λ a, answer_given a.1 a.2) answers = true →
      completed_activities (resubmit scenario_id answers s)
      = completed_activities (set_answer scenario_id s)
      ∧ completed_activities (resubmit scenario_id answers fresh_session)
        = 1%nat))
  ∧ ((completed_activities s
      ≤ completed_activities (recheck stat_key texts s)
      ≤ completed_activities s + 1)%nat
     ∧ (existsb example_given texts = true →
        completed_activities (recheck stat_key texts s)
        = completed_activities (set_example stat_key s)
        ∧ completed_activities (recheck stat_key texts fresh_session)
          = 1%nat))
  ∧ completed_activities (session_after StreamlitApp.run_script ws)
    = (size (completed_scenarios ws) + size (completed_stat_types ws))%nat.
Proof.
  intros Hid Hkey.
  rewrite !(resubmit_eq scenario_id answers) by done.
  rewrite !(recheck_eq stat_key texts) by done.
  split; [split|split; [split|]].
  - destruct (existsb _ answers); [|lia].
    apply (completed_activities_mark (Some (submit scenario_id)) s).
  - intros ->. split; [done|].
    by apply (completed_activities_one (Some (submit scenario_id))).
  - destruct (existsb _ texts); [|lia].
    apply (completed_activities_mark (Some (check stat_key)) s).
  - intros ->. split; [done|].
    by apply (completed_activities_one (Some (check stat_key))).
  - apply count_distinct, streamlit_page_state.
Qed.

Lemma C7_resubmission_counts_once_witness :
  completed_activities
    (resubmit 1 [(py "중앙값", py "이상치"); (py "선택하세요", py " ");
                 (py "평균", py "음")]
       fresh_session) = 1%nat.
Proof.
  destruct (C7_resubmission_counts_once 1 (py "mean")
              [(py "중앙값", py "이상치"); (py "선택하세요", py " ");
               (py "평균", py "음")]
              [py "고르게"] fresh_session [])
    as ((_ & Honce) & _); [compute_done..|].
  apply Honce. vm_compute. reflexivity.
Defined.

(** C8: in every reachable session state of either page, and for every
    sequence of runs that led there, the keys of the two dictionaries are
    the scenarios and the statistics completed in those runs, and the
    completed count is the number of distinct scenarios plus the number of
    distinct statistics completed in them; a reachable state has such a
    sequence.  The count is at most 5, and no sequence of later runs makes
    it smaller. *)
Theorem C8_progress_invariant
    (page : widgets → script session_state unit) (s : session_state)
    (later : list widgets) :
  is_page page → reachable page s →
  (∃ ws, s = session_after page ws)
  ∧ (∀ ws, s = session_after page ws →
           dom (answers_submitted s) = completed_scenarios ws
           ∧ dom (ai_examples_checked s) = completed_stat_types ws
           ∧ completed_activities s
             = (size (completed_scenarios ws)
                + size (completed_stat_types ws))%nat)
  ∧ (completed_activities s ≤ 5)%nat
  ∧ (completed_activities s
     ≤ completed_activities (session_from page s later))%nat.
Proof.
  intros Hpage Hreach. pose proof (is_page_state page Hpage) as Hstate.
  pose proof Hreach as (ws & Hws)%reachable_session.
  split; [by exists ws|]. split; [|split].
  - intros ws' ->.
    destruct (session_domains page Hstate ws') as [Ha He].
    split; [done|]. split; [done|]. by apply count_distinct.
  - subst s. by apply count_in_range.
  - by apply count_never_drops.
Qed.

Lemma C8_progress_invariant_witness :
  completed_activities (session_after StreamlitApp.run_script all_five)
  = (size (completed_scenarios all_five)
     + size (completed_stat_types all_five))%nat.
Proof.
  apply (C8_progress_invariant StreamlitApp.run_script
           (session_after StreamlitApp.run_script all_five) []).
  - exact local_page.
  - apply reachable_session. by exists all_five.
  - reflexivity.
Defined.

Section Display.
Implicit Types (s : session_state) (w : widgets).

Lemma fired_app out1 out2 : fired (out1 ++ out2) = fired out1 || fired out2.
Proof. apply existsb_app. Qed.

Lemma fired_quiet blocks :
  Forall (λ o, is_progress o = false) blocks → fired blocks = false.
Proof.
  induction 1 as [|o blocks Ho _ IH]; [done|].
  unfold fired in *. simpl. rewrite IH. by destruct o.
Qed.

Lemma fired_progress_page n :
  fired (progress_page n) = (n =? total_activities)%nat.
Proof. unfold progress_page. simpl. by destruct (n =? _)%nat. Qed.

(** A run of a page in a session whose count is in range. *)
Lemma page_run page w s :
  is_page page →
  (completed_activities (mark (completes w) s) ≤ total_activities)%nat →
  ∃ blocks,
    Forall (λ o, is_progress o = false) blocks
    ∧ page w s
      = (Ok (), mark (completes w) s,
         blocks ++ progress_page
                     (completed_activities (mark (completes w) s))).
Proof.
  intros Hpage Hle. destruct (is_page_eq page Hpage w s) as (blocks & Hq & ->).
  exists blocks. split; [done|].
  rewrite progress_block_eq. by rewrite bool_decide_true.
Qed.

End Display.

(** C9, amended: every run of either page, in any session, finishes and
    ends its page with the progress bar, the text "n/5 (20n%)" for the
    count [n] after the run, and the balloons exactly when [n] is 5.  So the
    first run without a valid submission shows 0/5 (0%) and no balloons,
    a run after which both scenarios and all three statistics are
    completed shows 5/5 (100%) with the balloons, and once the balloons
    have fired they fire again on every later run of the session. *)
Theorem C9_progress_display
    (page : widgets → script session_state unit)
    (ws later : list widgets) (w w' : widgets) :
  is_page page →
  let s := session_after page ws in
  let n := completed_activities (state_of (page w s)) in
  result_of (page w s) = Ok ()
  ∧ (∃ blocks, Forall (λ o, is_progress o = false) blocks
               ∧ page_of (page w s) = blocks ++ progress_page n)
  ∧ (ws = [] → completes w = None →
     ProgressText 0 5 0 ∈ page_of (page w s)
     ∧ fired (page_of (page w s)) = false)
  ∧ (completed_scenarios (ws ++ [w]) = list_to_set (Stats.scenarios.*1) →
     completed_stat_types (ws ++ [w]) = list_to_set (stat_types.*1) →
     ProgressText 5 5 100 ∈ page_of (page w s)
     ∧ fired (page_of (page w s)) = true)
  ∧ (fired (page_of (page w s)) = true ↔ n = 5%nat)
  ∧ (fired (page_of (page w s)) = true →
     fired (page_of (page w' (session_from page (state_of (page w s)) later)))
     = true).
Proof.
  intros Hpage s n.
  pose proof (is_page_state page Hpage) as Hstate.
  assert (Hs' : state_of (page w s) = session_after page (ws ++ [w])).
  { unfold s, session_after. by rewrite fold_left_app. }
  assert (Hn : (n ≤ total_activities)%nat).
  { unfold n. rewrite Hs'. by apply count_in_range. }
  assert (Hn' : n = completed_activities (mark (completes w) s)).
  { unfold n. by rewrite Hstate. }
  destruct (page_run page w s Hpage) as (blocks & Hq & Hrun).
  { by rewrite <- Hn'. }
  rewrite <- Hn' in Hrun.
  assert (Hfired : fired (page_of (page w s)) = (n =? total_activities)%nat).
  { rewrite Hrun. unfold page_of. cbn [snd].
    by rewrite fired_app, fired_quiet, fired_progress_page. }
  assert (Hshown : ProgressText n total_activities (20 * Z.of_nat n)
                   ∈ page_of (page w s)).
  { rewrite Hrun. unfold page_of. cbn [snd].
    apply elem_of_app. right. unfold progress_page.
    apply elem_of_app. left. right. left. }
  split_and!.
  - by rewrite Hrun.
  - exists blocks. by rewrite Hrun.
  - intros -> Hnone.
    assert (n = 0%nat) as Hn0.
    { rewrite Hn'. unfold s. rewrite Hnone. done. }
    rewrite Hfired. rewrite Hn0 in *. done.
  - intros Hsc Hst.
    assert (n = 5%nat) as Hn5.
    { unfold n. rewrite Hs', (count_distinct page Hstate), Hsc, Hst.
      rewrite !size_list_to_set; [done|rewrite stat_keys|rewrite scenario_ids];
        compute_done. }
    rewrite Hfired. rewrite Hn5 in *. done.
  - rewrite Hfired. apply Nat.eqb_eq.
  - rewrite Hfired. intros Hfive%Nat.eqb_eq.
    set (s2 := session_from page (state_of (page w s)) later).
    assert (Hs2 : s2 = session_after page ((ws ++ [w]) ++ later)).
    { unfold s2, session_from, session_after.
      rewrite (fold_left_app _ (ws ++ [w])). f_equal.
      by rewrite fold_left_app. }
    assert (Hm : completed_activities (mark (completes w') s2)
                 = total_activities).
    { apply Nat.le_antisymm.
      - rewrite <- Hstate.
        replace (state_of (page w' s2))
          with (session_after page (((ws ++ [w]) ++ later) ++ [w'])).
        + by apply count_in_range.
        + unfold session_after. rewrite (fold_left_app _ (_ ++ later)).
          by rewrite Hs2.
      - transitivity (completed_activities s2).
        + rewrite <- Hfive. unfold n, s2. by apply count_never_drops.
        + apply completed_activities_mark. }
    destruct (page_run page w' s2 Hpage) as (blocks' & Hq' & ->).
    { by rewrite Hm. }
    unfold page_of. cbn [snd].
    by rewrite fired_app, fired_quiet, fired_progress_page, Hm.
Qed.

Lemma C9_progress_display_witness :
  ProgressText 5 5 100
  ∈ page_of (StreamlitApp.run_script (press (check (py "mode")))
               (session_after StreamlitApp.run_script (take 4 all_five)))
  ∧ fired (page_of (StreamlitApp.run_script idle
                      (session_from StreamlitApp.run_script
                         (state_of
                            (StreamlitApp.run_script
                               (press (check (py "mode")))
                               (session_after StreamlitApp.run_script
                                  (take 4 all_five))))
                         [idle; press (submit 1)]))) = true.
Proof.
  destruct (C9_progress_display StreamlitApp.run_script (take 4 all_five)
              [idle; press (submit 1)] (press (check (py "mode"))) idle
              local_page)
    as (_ & _ & _ & Hfive & _ & Hagain).
  destruct Hfive as [Hshown Hfired]; [compute_done..|].
  split; [exact Hshown|exact (Hagain Hfired)].
Defined.

(** C9, as stated, does not hold: in the session that completes the five
    activities and is then rendered once more without any click, the
    balloons fire on the fifth run and again on the sixth. *)
Lemma C9_balloons_fire_again :
  fired (page_of (StreamlitApp.run_script (press (check (py "mode")))
                    (session_after StreamlitApp.run_script
                       (take 4 all_five)))) = true
  ∧ fired (page_of (StreamlitApp.run_script idle
                      (session_after StreamlitApp.run_script all_five)))
    = true
  ∧ celebrations StreamlitApp.run_script (all_five ++ [idle]) = 2%nat.
Proof. split_and!; vm_compute; reflexivity. Qed.

(** C10: on both pages, a submission with non-empty inputs for scenario
    [scenario_id] sets the entry of [scenario_id] in [answers_submitted],
    leaves every other entry of that dict and the whole of
    [ai_examples_checked] as they were; a check with a non-empty text for
    [stat_key] sets the entry of [stat_key] in [ai_examples_checked],
    leaves every other entry and the whole of [answers_submitted] as they
    were. *)
Theorem C10_submission_frame
    (scenario_id : Z) (stat_key best_stat reason example_text : pystr)
    (s : session_state) (client : option App.judge) (g : App.globals) :
  scenario_id ∈ Stats.scenarios.*1 → stat_key ∈ stat_types.*1 →
  answer_given best_stat reason = true →
  example_given example_text = true →
  let submitted :=
    state_of (StreamlitApp.on_submit scenario_id best_stat reason s) in
  let checked := state_of (StreamlitApp.on_check stat_key example_text s) in
  let submitted' :=
    App.session
      (state_of (App.on_submit client scenario_id best_stat reason g)) in
  let checked' :=
    App.session (state_of (App.on_check client stat_key example_text g)) in
  (answers_submitted submitted !! scenario_id = Some true
   ∧ (∀ j, j ≠ scenario_id →
           answers_submitted submitted !! j = answers_submitted s !! j)
   ∧ ai_examples_checked submitted = ai_examples_checked s)
  ∧ (ai_examples_checked checked !! stat_key = Some true
     ∧ (∀ k, k ≠ stat_key →
             ai_examples_checked checked !! k = ai_examples_checked s !! k)
     ∧ answers_submitted checked = answers_submitted s)
  ∧ (answers_submitted submitted' !! scenario_id = Some true
     ∧ (∀ j, j ≠ scenario_id →
             answers_submitted submitted' !! j
             = answers_submitted (App.session g) !! j)
     ∧ ai_examples_checked submitted'
       = ai_examples_checked (App.session g))
  ∧ (ai_examples_checked checked' !! stat_key = Some true
     ∧ (∀ k, k ≠ stat_key →
             ai_examples_checked checked' !! k
             = ai_examples_checked (App.session g) !! k)
     ∧ answers_submitted checked' = answers_submitted (App.session g)).
Proof.
  intros [key Hkey]%scenario_has_key [rule Hrule]%stat_has_rule Ha He.
  intros submitted checked submitted' checked'.
  assert (Hs : submitted = set_answer scenario_id s).
  { unfold submitted. by rewrite (on_submit_eq _ _ _ _ Hkey), Ha. }
  assert (Hc : checked = set_example stat_key s).
  { unfold checked. by rewrite (on_check_eq _ _ _ Hrule), He. }
  assert (Hs' : submitted' = set_answer scenario_id (App.session g)).
  { unfold submitted'.
    destruct (app_on_submit_eq client _ _ best_stat reason g Hkey)
      as (u & out & _ & ->). by rewrite Ha. }
  assert (Hc' : checked' = set_example stat_key (App.session g)).
  { unfold checked'.
    destruct (app_on_check_eq client _ _ example_text g Hrule)
      as (u & out & _ & ->). by rewrite He. }
  rewrite Hs, Hc, Hs', Hc'. unfold set_answer, set_example.
  cbn [answers_submitted ai_examples_checked].
  split_and!; try done; try apply lookup_insert_eq;
    intros j Hj; by apply lookup_insert_ne.
Qed.

Lemma C10_submission_frame_witness :
  answers_submitted
    (state_of (StreamlitApp.on_submit 1 (py "중앙값") (py "이상치")
                 (set_answer 2 fresh_session))) !! 2 = Some true.
Proof.
  destruct (C10_submission_frame 1 (py "mean") (py "중앙값") (py "이상치")
              (py "고르게") (set_answer 2 fresh_session) None
              {| App.session := fresh_session; App.USE_AI := false |})
    as ((_ & Hother & _) & _); [compute_done..|].
  rewrite (Hother 2) by discriminate.
  vm_compute. reflexivity.
Defined.

(** * Further properties *)

(** ** Statistics on other data *)

Section Averages.
Implicit Types (data : list Z) (lo hi : Z).

Lemma sorted_Permutation data data' :
  data ≡ₚ data' → merge_sort Z.le data = merge_sort Z.le data'.
Proof.
  intros Hperm. apply (Sorted_unique Z.le).
  - apply Sorted_merge_sort. apply _.
  - apply Sorted_merge_sort. apply _.
  - by rewrite !merge_sort_Permutation.
Qed.

Lemma np_median_Permutation data data' :
  data ≡ₚ data' → Stats.np_median data = Stats.np_median data'.
Proof.
  intros Hperm. unfold Stats.np_median.
  by rewrite (sorted_Permutation _ _ Hperm).
Qed.

Lemma sorted_split (l : list Z) i y z :
  StronglySorted Z.le l → y ∈ take i l → z ∈ drop i l → y ≤ z.
Proof.
  intros Hsorted Hy Hz. rewrite <- (take_drop i l) in Hsorted.
  by eapply (StronglySorted_app_1_elem_of Z.le).
Qed.

Lemma np_mean_one x : (Stats.np_mean [x] == inject_Z x)%Q.
Proof.
  unfold Stats.np_mean, Stats.np_sum, Qeq, Qdiv, Qmult, Qinv. simpl. lia.
Qed.

Lemma np_mean_two a b :
  (Stats.np_mean [a; b] == (inject_Z a + inject_Z b) / 2)%Q.
Proof.
  unfold Stats.np_mean, Stats.np_sum, Qeq, Qdiv, Qmult, Qinv, Qplus.
  simpl. lia.
Qed.

(** The middle of the ordered values: one value for an odd length, two for
    an even one; the first [p] ordered values are below it and the values
    from position [q] on are above it. *)
Lemma np_median_middle data :
  data ≠ [] →
  ∃ a b p q,
    a ≤ b
    ∧ (Stats.np_median data == (inject_Z a + inject_Z b) / 2)%Q
    ∧ a ∈ data ∧ b ∈ data
    ∧ (p ≤ length data ≤ 2 * p)%nat
    ∧ (q ≤ length data ≤ 2 * (length data - q))%nat
    ∧ Forall (λ y, y ≤ a) (take p (merge_sort Z.le data))
    ∧ Forall (λ z, b ≤ z) (drop q (merge_sort Z.le data)).
Proof.
  intros Hne. unfold Stats.np_median.
  pose proof (merge_sort_Permutation Z.le data) as Hperm.
  assert (Hsorted : StronglySorted Z.le (merge_sort Z.le data))
    by (apply StronglySorted_merge_sort; apply _).
  rewrite <- (Permutation_length Hperm).
  assert (Hin : ∀ x, x ∈ merge_sort Z.le data → x ∈ data)
    by (intros x; by rewrite Hperm).
  assert (Hpos : (0 < length (merge_sort Z.le data))%nat).
  { rewrite (Permutation_length Hperm). destruct data; [done|simpl; lia]. }
  set (l := merge_sort Z.le data) in *. set (n := length l) in *.
  destruct (Nat.odd n) eqn:Hodd.
  - apply Nat.odd_spec in Hodd as [m Hm].
    assert (Hidx : (n / 2 = m)%nat)
      by (symmetry; apply (Nat.div_unique n 2 m 1); lia).
    rewrite Hidx.
    destruct (lookup_lt_is_Some_2 l m) as [x Hx]; [lia|].
    rewrite (drop_S l x m Hx). cbn [take].
    exists x, x, (S m), m. split_and!; try lia.
    + rewrite np_mean_one. unfold Qeq, Qdiv, Qmult, Qinv, Qplus. simpl. lia.
    + apply Hin. by eapply list_elem_of_lookup_2.
    + apply Hin. by eapply list_elem_of_lookup_2.
    + rewrite (take_S_r l m x Hx). apply Forall_app. split.
      * apply Forall_forall. intros y Hy.
        apply (sorted_split l m y x Hsorted Hy).
        rewrite (drop_S l x m Hx). left.
      * by apply Forall_singleton.
    + rewrite (drop_S l x m Hx). apply Forall_cons. split; [done|].
      apply Forall_forall. intros z Hz.
      apply (sorted_split l (S m) x z Hsorted); [|done].
      rewrite (take_S_r l m x Hx). apply elem_of_app. right. left.
  - assert (Heven : Nat.even n = true) by (by rewrite <- Nat.negb_odd, Hodd).
    apply Nat.even_spec in Heven as [m Hm].
    assert (Hidx : (n / 2 = m)%nat)
      by (symmetry; apply (Nat.div_unique n 2 m 0); lia).
    rewrite Hidx. destruct m as [|m]; [lia|].
    replace (S m - 1)%nat with m by lia.
    destruct (lookup_lt_is_Some_2 l m) as [a Ha]; [lia|].
    destruct (lookup_lt_is_Some_2 l (S m)) as [b Hb]; [lia|].
    rewrite (drop_S l a m Ha), (drop_S l b (S m) Hb). cbn [take].
    assert (Hab : a ≤ b).
    { apply (sorted_split l (S m) a b Hsorted).
      - rewrite (take_S_r l m a Ha). apply elem_of_app. right. left.
      - rewrite (drop_S l b (S m) Hb). left. }
    exists a, b, (S m), (S m). split_and!; try lia.
    + apply np_mean_two.
    + apply Hin. by eapply list_elem_of_lookup_2.
    + apply Hin. by eapply list_elem_of_lookup_2.
    + rewrite (take_S_r l m a Ha). apply Forall_app. split.
      * apply Forall_forall. intros y Hy.
        apply (sorted_split l m y a Hsorted Hy).
        rewrite (drop_S l a m Ha). left.
      * by apply Forall_singleton.
    + rewrite (drop_S l b (S m) Hb). apply Forall_cons. split; [done|].
      apply Forall_forall. intros z Hz.
      apply (sorted_split l (S (S m)) b z Hsorted); [|done].
      rewrite (take_S_r l (S m) b Hb). apply elem_of_app. right. left.
Qed.

Lemma length_filter_all {A} (P : A → Prop) `{∀ x, Decision (P x)} l :
  Forall P l → length (filter P l) = length l.
Proof.
  induction 1 as [|x l Hx _ IH]; [done|].
  rewrite filter_cons. destruct (decide (P x)); [|done]. simpl. by rewrite IH.
Qed.

Lemma length_filter_sorted (P : Z → Prop) `{∀ x, Decision (P x)} data k :
  length (filter P data)
  = (length (filter P (take k (merge_sort Z.le data)))
     + length (filter P (drop k (merge_sort Z.le data))))%nat.
Proof.
  rewrite <- length_app, <- filter_app, take_drop.
  apply Permutation_length. by rewrite merge_sort_Permutation.
Qed.

Lemma at_most_take q data p :
  Forall (λ y, (inject_Z y <= q)%Q) (take p (merge_sort Z.le data)) →
  (p ≤ length data → p ≤ at_most q data)%nat.
Proof.
  intros Hall Hp. unfold at_most.
  rewrite (length_filter_sorted _ data p), length_filter_all.
  - rewrite length_take.
    rewrite (Permutation_length (merge_sort_Permutation Z.le data)). lia.
  - eapply Forall_impl; [done|]. intros y Hy. by apply Qle_bool_iff.
Qed.

Lemma at_least_drop q data k :
  Forall (λ z, (q <= inject_Z z)%Q) (drop k (merge_sort Z.le data)) →
  (length data - k ≤ at_least q data)%nat.
Proof.
  intros Hall. unfold at_least.
  rewrite (length_filter_sorted _ data k).
  rewrite (length_filter_all _ (drop _ _)).
  - rewrite length_drop.
    rewrite (Permutation_length (merge_sort_Permutation Z.le data)). lia.
  - eapply Forall_impl; [done|]. intros y Hy. by apply Qle_bool_iff.
Qed.

End Averages.

(** X4: on integers that fit, at least half of the values are at most
    the median, and at least half of them are at least the median. *)
Theorem median_splits_in_halves (data : list Z) :
  data ≠ [] → Forall (λ x, fits x = true) data →
  (length data ≤ 2 * at_most (Stats.np_median data) data)%nat
  ∧ (length data ≤ 2 * at_least (Stats.np_median data) data)%nat.
Proof.
  intros Hne _.
  destruct (np_median_middle data Hne)
    as (a & b & p & q & Hab & Hmed & _ & _ & Hp & Hq & Hlow & Hhigh).
  assert (Ha : (inject_Z a <= Stats.np_median data)%Q).
  { rewrite Hmed. apply Qle_shift_div_l; [reflexivity|].
    rewrite Zle_Qle in Hab. lra. }
  assert (Hb : (Stats.np_median data <= inject_Z b)%Q).
  { rewrite Hmed. apply Qle_shift_div_r; [reflexivity|].
    rewrite Zle_Qle in Hab. lra. }
  split.
  - pose proof (at_most_take (Stats.np_median data) data p) as Hcount.
    etrans; [apply (proj2 Hp)|]. apply Nat.mul_le_mono_l, Hcount; [|lia].
    eapply Forall_impl; [done|]. intros y Hy. cbv beta in Hy.
    rewrite Zle_Qle in Hy. lra.
  - pose proof (at_least_drop (Stats.np_median data) data q) as Hcount.
    etrans; [apply (proj2 Hq)|]. apply Nat.mul_le_mono_l, Hcount.
    eapply Forall_impl; [done|]. intros z Hz. cbv beta in Hz.
    rewrite Zle_Qle in Hz. lra.
Qed.

Section Rounding.
Implicit Types (q : Q) (data part : list Z).

Lemma rint_Qeq p q : (p == q)%Q → Stats.rint p = Stats.rint q.
Proof.
  intros Hpq. unfold Stats.rint. rewrite (Qfloor_comp _ _ Hpq).
  assert (Hc : (p - inject_Z (Qfloor q) ?= 1 # 2)%Q
               = (q - inject_Z (Qfloor q) ?= 1 # 2)%Q)
    by (apply Qcompare_comp; [by rewrite Hpq|reflexivity]).
  by rewrite Hc.
Qed.

Lemma rint_whole z : Stats.rint (inject_Z z) = z.
Proof.
  unfold Stats.rint. rewrite Qfloor_Z.
  destruct (Qcompare_spec (inject_Z z - inject_Z z) (1 # 2)) as [H|H|H];
    [exfalso; lra|done|exfalso; lra].
Qed.

Lemma round1_whole q z : (q == inject_Z z)%Q → (Stats.round1 q == inject_Z z)%Q.
Proof.
  intros Hq. unfold Stats.round1.
  rewrite (rint_Qeq (q * 10) (inject_Z (z * 10))).
  - rewrite rint_whole, inject_Z_mult. change (inject_Z 10) with 10%Q. field.
  - rewrite Hq, inject_Z_mult. reflexivity.
Qed.

Lemma np_mean_whole data z :
  data ≠ [] → Stats.np_sum data = z * Z.of_nat (length data) →
  (Stats.np_mean data == inject_Z z)%Q.
Proof.
  intros Hne Hsum. unfold Stats.np_mean. rewrite Hsum, inject_Z_mult.
  field. intros Hn. destruct data as [|x data]; [done|].
  unfold Qeq in Hn. cbn [length] in Hn. simpl Qnum in Hn. simpl Qden in Hn.
  lia.
Qed.

Lemma magnitude_nonneg data : 0 ≤ magnitude data.
Proof. unfold magnitude. induction data; simpl; lia. Qed.

Lemma np_sum_magnitude data : Z.abs (Stats.np_sum data) ≤ magnitude data.
Proof.
  unfold Stats.np_sum, magnitude. induction data; simpl; lia.
Qed.

Lemma magnitude_submseteq part data :
  part ⊆+ data → magnitude part ≤ magnitude data.
Proof.
  unfold magnitude. induction 1; simpl in *; lia.
Qed.

End Rounding.

Section Mode.
Implicit Types (data : list Z).

Lemma occurrences_Permutation v data data' :
  data ≡ₚ data' → occurrences v data = occurrences v data'.
Proof. intros Hperm. unfold occurrences. by rewrite Hperm. Qed.

(** What [calculate_stats] answers on a list that is not empty. *)
Lemma calculate_stats_answer data :
  data ≠ [] →
  ∃ m,
    Stats.calculate_stats data
    = Some {| Stats.mean := Stats.round1 (Stats.np_mean data);
              Stats.median := Stats.np_median data;
              Stats.mode := m |}
    ∧ m ∈ data
    ∧ (∀ v, (occurrences v data ≤ occurrences m data)%nat)
    ∧ (∀ v, v ≠ m → occurrences v data = occurrences m data →
            appears_before m v data).
Proof.
  intros Hne. unfold Stats.calculate_stats.
  pose proof (tally_of_Counter data) as [Hnd Hkeys Hcount Horder].
  destruct (Stats.Counter data) as [|it rest] eqn:Ec.
  { destruct data as [|x data]; [done|].
    exfalso. eapply not_elem_of_nil. apply Hkeys. left. }
  cbn [Stats.most_common_1].
  destruct (max_by_count_first it rest) as (i & Hi & Hall).
  destruct (Stats.max_by_count it rest) as [m n]. cbn [fst snd] in *.
  exists m. split; [done|].
  assert (Hmkey : ((it :: rest).*1) !! i = Some m)
    by (by rewrite list_lookup_fmap, Hi).
  assert (Hm : m ∈ data) by (apply Hkeys; by eapply list_elem_of_lookup_2).
  assert (Hn : n = occurrences m data)
    by (apply Hcount; by eapply list_elem_of_lookup_2).
  assert (Hentry : ∀ v, v ∈ data →
            ∃ j, (it :: rest) !! j = Some (v, occurrences v data)).
  { intros v Hv. apply Hkeys in Hv.
    apply list_elem_of_fmap in Hv as ([v' nv] & -> & Hv). simpl.
    rewrite (Hcount _ _ Hv) in Hv. by apply list_elem_of_lookup_1 in Hv. }
  split; [done|]. split.
  - intros v. destruct (decide (v ∈ data)) as [Hv|Hv].
    + destruct (Hentry v Hv) as (j & Hj).
      destruct (Hall j _ Hj) as [Hle _]. simpl in Hle. lia.
    + destruct (occurrences v data) eqn:E; [lia|].
      exfalso. apply Hv, occurrences_pos. lia.
  - intros v Hv Htie.
    assert (Hvin : v ∈ data).
    { apply occurrences_pos. rewrite Htie. by apply occurrences_pos. }
    destruct (Hentry v Hvin) as (j & Hj).
    destruct (Hall j _ Hj) as [_ Hstrict]. simpl in Hstrict.
    assert (Hij : (i < j)%nat).
    { destruct (decide (i = j)) as [->|?].
      - rewrite Hi in Hj. by injection Hj as ? ?.
      - destruct (decide (j < i)%nat); [|lia].
        specialize (Hstrict ltac:(done)). lia. }
    apply (Horder i j); [done| |done].
    by rewrite list_lookup_fmap, Hj.
Qed.

End Mode.


(** X2: on a non-empty list of integers that fit, whose values all lie
    between [lo] and [hi], [calculate_stats] answers, and the median and
    the mode it answers lie between [lo] and [hi] too; the median is the
    half of an integer of magnitude at most 2^53, which [float64] holds
    as it is. *)
Theorem statistics_within_data_range (data : list Z) (lo hi : Z) :
  data ≠ [] → Forall (λ x, fits x = true) data →
  Forall (λ x, lo ≤ x ≤ hi) data →
  ∃ s, Stats.calculate_stats data = Some s
       ∧ (inject_Z lo <= Stats.median s <= inject_Z hi)%Q
       ∧ lo ≤ Stats.mode s ≤ hi
       ∧ ∃ k, Z.abs k ≤ 2 ^ 53 ∧ (Stats.median s * 2 == inject_Z k)%Q.
Proof.
  intros Hne Hfits Hall.
  destruct (calculate_stats_answer data Hne) as (m & -> & Hm & _).
  eexists. split; [done|]. cbn [Stats.mean Stats.median Stats.mode].
  rewrite Forall_forall in Hall. rewrite Forall_forall in Hfits.
  destruct (np_median_middle data Hne)
    as (a & b & _ & _ & Hab & Hmed & Ha & Hb & _).
  split; [|split; [by apply Hall|]].
  - rewrite Hmed. apply Hall in Ha, Hb.
    destruct Ha as [Ha Ha'], Hb as [Hb Hb'].
    rewrite Zle_Qle in Ha, Ha', Hb, Hb'. split.
    + apply Qle_shift_div_l; [reflexivity|]. lra.
    + apply Qle_shift_div_r; [reflexivity|]. lra.
  - exists (a + b). apply Hfits in Ha, Hb. unfold fits in Ha, Hb.
    apply Z.leb_le in Ha, Hb. split.
    + change (2 ^ 53) with (2 ^ 52 + 2 ^ 52). lia.
    + rewrite Hmed, inject_Z_plus. field.
Qed.

(** X3: on non-empty data whose average is an integer [z] and whose
    magnitudes sum to at most 2^53 / 10, the mean [calculate_stats]
    answers is [z]: rounding to one decimal leaves it alone.  On such
    data the sum of any part of the values, and ten times the average,
    are integers of magnitude at most 2^53. *)
Theorem whole_average_is_shown_exactly (data : list Z) (z : Z) :
  data ≠ [] → 10 * magnitude data ≤ 2 ^ 53 →
  Stats.np_sum data = z * Z.of_nat (length data) →
  ∃ s, Stats.calculate_stats data = Some s
       ∧ (Stats.mean s == inject_Z z)%Q
       ∧ Z.abs (10 * z) ≤ 2 ^ 53
       ∧ ∀ part, part ⊆+ data → Z.abs (Stats.np_sum part) ≤ 2 ^ 53.
Proof.
  intros Hne Hbound Hsum.
  destruct (calculate_stats_answer data Hne) as (m & -> & _).
  eexists. split; [done|]. cbn [Stats.mean].
  split; [by apply round1_whole, np_mean_whole|].
  pose proof (np_sum_magnitude data) as Hmag.
  pose proof (magnitude_nonneg data) as Hpos.
  split.
  - assert (Hn : 1 ≤ Z.of_nat (length data))
      by (destruct data; [done|simpl; lia]).
    assert (Hz : Z.abs z ≤ Z.abs (Stats.np_sum data)).
    { rewrite Hsum, Z.abs_mul. nia. }
    lia.
  - intros part Hpart%magnitude_submseteq.
    pose proof (np_sum_magnitude part). lia.
Qed.

(** X5: on integers that fit, reordering the data does not change the
    median, and the mode of the reordered data occurs as often as the
    mode of the data; when one value occurs more often than every other,
    the mode is the same. *)
Theorem reordering_keeps_statistics (data data' : list Z) :
  data ≡ₚ data' → data ≠ [] → Forall (λ x, fits x = true) data →
  ∃ s s',
    Stats.calculate_stats data = Some s
    ∧ Stats.calculate_stats data' = Some s'
    ∧ Forall (λ x, fits x = true) data'
    ∧ Stats.median s = Stats.median s'
    ∧ occurrences (Stats.mode s') data = occurrences (Stats.mode s) data
    ∧ ((∀ v, v ≠ Stats.mode s →
             (occurrences v data < occurrences (Stats.mode s) data)%nat) →
       Stats.mode s' = Stats.mode s).
Proof.
  intros Hperm Hne Hfits.
  assert (Hne' : data' ≠ []).
  { intros ->. by apply Permutation_nil_r in Hperm. }
  destruct (calculate_stats_answer data Hne) as (m & -> & Hm & Hmax & _).
  destruct (calculate_stats_answer data' Hne') as (m' & -> & Hm' & Hmax' & _).
  do 2 eexists. split; [done|]. split; [done|].
  cbn [Stats.mean Stats.median Stats.mode].
  assert (Hcount : occurrences m' data = occurrences m data).
  { apply Nat.le_antisymm; [apply Hmax|].
    rewrite !(occurrences_Permutation _ data data' Hperm). apply Hmax'. }
  split_and!.
  - by rewrite <- Hperm.
  - by rewrite (np_median_Permutation _ _ Hperm).
  - done.
  - intros Hunique. destruct (decide (m' = m)) as [|Hneq]; [done|].
    specialize (Hunique m' Hneq). lia.
Qed.

Lemma median_splits_in_halves_witness :
  (4 ≤ 2 * at_most (Stats.np_median [3; 1; 2; 2]%Z) [3; 1; 2; 2]%Z)%nat
  ∧ (4 ≤ 2 * at_least (Stats.np_median [3; 1; 2; 2]%Z) [3; 1; 2; 2]%Z)%nat.
Proof.
  apply (median_splits_in_halves [3; 1; 2; 2]%Z).
  - discriminate.
  - by repeat constructor.
Defined.

Lemma statistics_within_data_range_witness :
  ∃ s, Stats.calculate_stats [4; 5; 6; 6; 6; 7; 7; 23] = Some s
       ∧ (inject_Z 4 <= Stats.median s <= inject_Z 23)%Q
       ∧ 4 ≤ Stats.mode s ≤ 23
       ∧ ∃ k, Z.abs k ≤ 2 ^ 53 ∧ (Stats.median s * 2 == inject_Z k)%Q.
Proof.
  apply (statistics_within_data_range [4; 5; 6; 6; 6; 7; 7; 23] 4 23).
  - discriminate.
  - by repeat constructor.
  - compute_done.
Defined.

Lemma whole_average_is_shown_exactly_witness :
  ∃ s, Stats.calculate_stats [3; -1; 4] = Some s
       ∧ (Stats.mean s == inject_Z 2)%Q
       ∧ Z.abs (10 * 2) ≤ 2 ^ 53
       ∧ ∀ part, part ⊆+ [3; -1; 4] → Z.abs (Stats.np_sum part) ≤ 2 ^ 53.
Proof.
  apply (whole_average_is_shown_exactly [3; -1; 4] 2).
  - discriminate.
  - vm_compute. discriminate.
  - reflexivity.
Defined.

Lemma reordering_keeps_statistics_witness :
  ∃ s s',
    Stats.calculate_stats [260; 250; 250] = Some s
    ∧ Stats.calculate_stats [250; 260; 250] = Some s'
    ∧ Forall (λ x, fits x = true) [250; 260; 250]
    ∧ Stats.median s = Stats.median s'
    ∧ occurrences (Stats.mode s') [260; 250; 250]
      = occurrences (Stats.mode s) [260; 250; 250]
    ∧ ((∀ v, v ≠ Stats.mode s →
             (occurrences v [260; 250; 250]%Z
              < occurrences (Stats.mode s) [260; 250; 250]%Z)%nat) →
       Stats.mode s' = Stats.mode s).
Proof.
  apply (reordering_keeps_statistics [260; 250; 250] [250; 260; 250]).
  - apply perm_swap.
  - discriminate.
  - by repeat constructor.
Defined.

(** ** The data line *)

(** X15: the data line shows the values of the scenario in their order;
    an item is shown as outlier exactly when the scenario is 1 and its
    index is the scenario's [outlier_index], and as mode exactly when the
    scenario is 2 and its index is among the scenario's [mode_indices]. *)
Theorem highlights_follow_the_scenario
    (scenario_id : Z) (scenario : Stats.scenario) (i : nat)
    (c : Markup.item_class) (v : Z) :
  (Markup.data_html scenario_id scenario).*2 = Stats.data scenario
  ∧ (Markup.data_html scenario_id scenario !! i = Some (c, v) →
     Stats.data scenario !! i = Some v
     ∧ (c = Markup.outlier
        ↔ scenario_id = 1 ∧ Stats.outlier_index scenario = Some i)
     ∧ (c = Markup.mode_highlight
        ↔ scenario_id = 2 ∧ i ∈ Stats.mode_indices scenario)).
Proof.
  split.
  - unfold Markup.data_html. apply list_eq. intros j.
    rewrite list_lookup_fmap, list_lookup_imap.
    destruct (Stats.data scenario !! j) as [x|]; [|done]. simpl.
    by repeat case_match.
  - unfold Markup.data_html. rewrite list_lookup_imap.
    destruct (Stats.data scenario !! i) as [x|]; [|done]. simpl.
    destruct (Z.eqb_spec scenario_id 1) as [He1|Hne1];
      destruct (Z.eqb_spec scenario_id 2) as [He2|Hne2];
      simpl; repeat case_bool_decide; intros [= <- <-];
      (split; [done|]); intuition congruence.
Qed.

Lemma highlights_follow_the_scenario_witness :
  Stats.data (Stats.mk_scenario [4; 9; 9] (Some 1%nat) []) !! 1%nat
    = Some 9
  ∧ (Markup.outlier = Markup.outlier
     ↔ 1 = 1
       ∧ Stats.outlier_index
           (Stats.mk_scenario [4; 9; 9] (Some 1%nat) []) = Some 1%nat)
  ∧ (Markup.outlier = Markup.mode_highlight
     ↔ 1 = 2
       ∧ 1%nat ∈ Stats.mode_indices
           (Stats.mk_scenario [4; 9; 9] (Some 1%nat) [])).
Proof.
  apply (proj2 (highlights_follow_the_scenario
                  1 (Stats.mk_scenario [4; 9; 9] (Some 1%nat) [])
                  1 Markup.outlier 9)).
  vm_compute. reflexivity.
Defined.

(** X16: on the page's two scenarios the highlighted items are the ones
    the statistics single out: an item is shown as mode exactly when it
    is a value of scenario 2 equal to the mode [calculate_stats] answers,
    and as outlier exactly when it is the value of scenario 1 that is
    greater than every other value. *)
Theorem table_highlights_agree_with_statistics
    (scenario_id : Z) (scenario : Stats.scenario) (stats : Stats.stats)
    (i : nat) (c : Markup.item_class) (v : Z) :
  dict_get Stats.scenarios scenario_id = Some scenario →
  Stats.calculate_stats (Stats.data scenario) = Some stats →
  Markup.data_html scenario_id scenario !! i = Some (c, v) →
  (c = Markup.mode_highlight ↔ scenario_id = 2 ∧ v = Stats.mode stats)
  ∧ (c = Markup.outlier
     ↔ scenario_id = 1
       ∧ ∀ j x, Stats.data scenario !! j = Some x → j ≠ i → x < v).
Proof.
  intros Hsc Hstats.
  unfold Stats.scenarios in Hsc. cbn [dict_get] in Hsc.
  repeat case_decide; [| |done]; subst scenario_id;
    injection Hsc as <-; cbn [Stats.data] in Hstats;
    vm_compute in Hstats; injection Hstats as <-; cbn [Stats.mode];
    intros Hl; do 9 (try (destruct i as [|i]));
    vm_compute in Hl; try discriminate Hl; injection Hl as <- <-;
    (split; split; [intros [=]| intros [Ha Hb]; try lia; try done
                   |intros [=]| intros [Ha Hb]; try lia; try done]).
  all: try (exfalso; specialize (Hb 7%nat 23 eq_refl); lia).
  all: split; try done.
  intros j x Hj Hne. cbn [Stats.data] in Hj.
  do 8 (destruct j as [|j]; [injection Hj as <-; lia|]).
  discriminate Hj.
Qed.

Lemma table_highlights_agree_with_statistics_witness :
  (Markup.mode_highlight = Markup.mode_highlight ↔ 2 = 2 ∧ 250 = 250)
  ∧ (Markup.mode_highlight = Markup.outlier
     ↔ 2 = 1
       ∧ ∀ j x, [250; 250; 250; 260; 260; 270; 280] !! j = Some x →
                j ≠ 1%nat → x < 250).
Proof.
  apply (table_highlights_agree_with_statistics
           2 (Stats.mk_scenario [250; 250; 250; 260; 260; 270; 280]
                                None [0; 1; 2]%nat)
           (Stats.mk_stats (2600 # 10) 260 250) 1 Markup.mode_highlight 250);
    vm_compute; reflexivity.
Defined.

(** ** Input checks and keyword search *)

Section Strip.
Implicit Types (s t : pystr).

Lemma lstrip_nil s : lstrip s = [] ↔ Forall (λ c, isspace c = true) s.
Proof.
  induction s as [|c s IH]; simpl; [by split; [constructor|]|].
  destruct (isspace c) eqn:Hc.
  - rewrite IH. split; [by constructor|]. by intros [_ ?]%Forall_cons.
  - split; [done|]. intros [? _]%Forall_cons. congruence.
Qed.

Lemma lstrip_all_space s : Forall (λ c, isspace c = true) (lstrip s) → lstrip s = [].
Proof.
  induction s as [|c s IH]; simpl; [done|].
  destruct (isspace c) eqn:Hc; [done|].
  intros [? _]%Forall_cons. congruence.
Qed.

Lemma strip_nil s : strip s = [] ↔ Forall (λ c, isspace c = true) s.
Proof.
  unfold strip, rstrip. split.
  - intros Hnil. apply lstrip_nil, lstrip_all_space.
    apply (f_equal reverse) in Hnil. rewrite reverse_involutive in Hnil.
    apply lstrip_nil in Hnil. by rewrite Forall_reverse in Hnil.
  - intros Hall%lstrip_nil. by rewrite Hall.
Qed.

Lemma not_all_space s :
  ¬ Forall (λ c, isspace c = true) s ↔ Exists (λ c, isspace c = false) s.
Proof.
  induction s as [|c s IH].
  - split; [intros H; by destruct H|by intros ?%Exists_nil].
  - rewrite Forall_cons, Exists_cons, <- IH.
    destruct (isspace c).
    + split; [intros Hn; right; intros Hs; by apply Hn|].
      intros [?|Hn] [_ Hs]; [done|by apply Hn].
    + split; [by left|]. by intros _ [? _].
Qed.

End Strip.

(** X6: an answer passes the check of the submit handler exactly when a
    statistic other than the placeholder is selected and the reason holds
    a code point that is not white space; an example passes the check of
    the check handler exactly when it holds such a code point. *)
Theorem submission_accepted_iff_visible_text
    (best_stat reason example_text : pystr) :
  (answer_given best_stat reason = true
   ↔ best_stat ≠ placeholder ∧ Exists (λ c, isspace c = false) reason)
  ∧ (example_given example_text = true
     ↔ Exists (λ c, isspace c = false) example_text).
Proof.
  rewrite <- !not_all_space, <- !strip_nil.
  split; [apply answer_given_spec|apply example_given_spec].
Qed.

Section Extension.
Implicit Types (kw s pre post : pystr) (keywords : list pystr).




End Extension.



Section Caseless.
Implicit Types (kw s : pystr).

Lemma contains_lower_caseless kw s :
  kw ≠ [] → Forall (λ c, caseless c = true) kw →
  contains kw (lower s) = contains kw s.
Proof.
  intros Hne Hkw. apply contains_case_image; [done..|].
  apply lower_case_image.
Qed.

Lemma existsb_lower_caseless (keywords : list pystr) s :
  Forall (λ kw, kw ≠ [] ∧ Forall (λ c, caseless c = true) kw) keywords →
  existsb (λ keyword, contains keyword (lower s)) keywords
  = existsb (λ keyword, contains keyword s) keywords.
Proof.
  induction 1 as [|kw keywords [Hne Hkw] _ IH]; [done|].
  simpl. by rewrite IH, contains_lower_caseless.
Qed.

End Caseless.

Lemma existsb_case_image (keywords : list pystr) (s s' : pystr) :
  Forall (λ kw, kw ≠ [] ∧ Forall (λ c, caseless c = true) kw) keywords →
  case_image s s' →
  existsb (λ keyword, contains keyword (lower s)) keywords
  = existsb (λ keyword, contains keyword s') keywords.
Proof.
  intros Hall Hs. induction Hall as [|kw keywords [Hne Hkw] _ IH]; [done|].
  simpl. by rewrite IH, (keyword_search_any_case_table kw s s').
Qed.

(** X8: the three flags the handlers compute, [has_key_reason],
    [has_good] and [has_bad], are the same whether the keywords are
    searched in [lower text] or in any other case image of [text]. *)
Theorem keyword_flags_ignore_case_table
    (scenario_id : Z) (key : answer_key) (stat_key : pystr) (rule : rule)
    (text text' : pystr) :
  dict_get correct_answers scenario_id = Some key →
  dict_get analysis_rules stat_key = Some rule →
  case_image text text' →
  existsb (λ keyword, contains keyword (lower text)) (keywords key)
  = existsb (λ keyword, contains keyword text') (keywords key)
  ∧ existsb (λ keyword, contains keyword (lower text)) (good_keywords rule)
    = existsb (λ keyword, contains keyword text') (good_keywords rule)
  ∧ existsb (λ keyword, contains keyword (lower text)) (bad_keywords rule)
    = existsb (λ keyword, contains keyword text') (bad_keywords rule).
Proof.
  intros Hkey%dict_get_elem_of Hrule%dict_get_elem_of Himg.
  destruct keywords_caseless as [Hk Hr].
  rewrite Forall_forall in Hk. rewrite Forall_forall in Hr.
  specialize (Hk _ Hkey). specialize (Hr _ Hrule). cbn [snd] in Hk, Hr.
  apply Forall_app in Hr as [Hg Hb].
  split_and!; by apply existsb_case_image.
Qed.

Lemma keyword_flags_ignore_case_table_witness :
  existsb (λ keyword, contains keyword (lower (py "A 이상치")))
          [py "극단값"; py "이상치"; py "왜곡"; py "영향"; py "극단"]
  = existsb (λ keyword, contains keyword (py "a 이상치"))
            [py "극단값"; py "이상치"; py "왜곡"; py "영향"; py "극단"].
Proof.
  assert (Hrule : ∃ rule, dict_get analysis_rules (py "mean") = Some rule)
    by (eexists; vm_compute; reflexivity).
  destruct Hrule as [rule Hrule].
  refine (proj1 (keyword_flags_ignore_case_table 1 _ (py "mean") rule
                   (py "A 이상치") (py "a 이상치") eq_refl Hrule _)).
  vm_compute.
  repeat first
    [ apply case_image_nil
    | apply case_image_keep; [reflexivity|]
    | apply (case_image_map _ _ []); [reflexivity|by repeat constructor|] ].
Defined.

(** ** The two pages without a judge *)

Section Lifting.
Implicit Types (g : App.globals) (client : option App.judge) (w : widgets).

Lemma lift_bind (c : script session_state unit)
    (k : unit → script session_state unit) g :
  lift (c ≫= k) g = (lift c ≫= λ a, lift (k a)) g.
Proof.
  unfold lift, mbind, script_bind, bind. destruct g as [s u]. cbn [App.session App.USE_AI].
  destruct (c s) as [[[a|] s1] out1]; [|done].
  cbn [App.session App.USE_AI]. by destruct (k a s1) as [[r s2] out2].
Qed.

Lemma lift_USE_AI (c : script session_state unit) g r g1 out :
  lift c g = (r, g1, out) → App.USE_AI g1 = App.USE_AI g.
Proof.
  unfold lift. destruct (c (App.session g)) as [[r' s'] out'].
  by intros [= _ <- _].
Qed.

Lemma for_each_lift {X} (xs : list X)
    (body : X → script session_state unit)
    (body' : X → script App.globals unit) g :
  (∀ x g, App.USE_AI g = false → body' x g = lift (body x) g) →
  App.USE_AI g = false →
  for_each xs body' g = lift (for_each xs body) g.
Proof.
  intros Hbody. revert g. induction xs as [|x xs IH]; intros g Hg.
  - by destruct g.
  - cbn [for_each]. rewrite lift_bind.
    unfold mbind, script_bind, bind. rewrite (Hbody x g Hg).
    destruct (lift (body x) g) as [[[[]|] g1] out1] eqn:Hrun; [|done].
    apply lift_USE_AI in Hrun. rewrite IH by congruence. done.
Qed.

Lemma app_on_submit_local client scenario_id best_stat reason g :
  App.USE_AI g = false →
  App.on_submit client scenario_id best_stat reason g
  = lift (StreamlitApp.on_submit scenario_id best_stat reason) g.
Proof.
  destruct g as [s u]. cbn [App.USE_AI]. intros ->.
  unfold App.on_submit, StreamlitApp.on_submit, lift.
  destruct (answer_given best_stat reason); [|done].
  unfold mbind, script_bind, bind, get, when, eval, emit, modify, ret, raise.
  cbn [App.USE_AI App.session andb negb].
  by destruct (dict_get correct_answers scenario_id).
Qed.

Lemma app_on_check_local client stat_key example_text g :
  App.USE_AI g = false →
  App.on_check client stat_key example_text g
  = lift (StreamlitApp.on_check stat_key example_text) g.
Proof.
  destruct g as [s u]. cbn [App.USE_AI]. intros ->.
  unfold App.on_check, StreamlitApp.on_check, lift.
  destruct (example_given example_text); [|done].
  unfold mbind, script_bind, bind, get, when, eval, emit, modify, ret, raise.
  cbn [App.USE_AI App.session andb negb].
  by destruct (dict_get analysis_rules stat_key).
Qed.

Lemma app_scenario_block_local client w item g :
  App.USE_AI g = false →
  App.scenario_block client w item g
  = lift (StreamlitApp.scenario_block w item) g.
Proof.
  intros Hg. unfold App.scenario_block, StreamlitApp.scenario_block.
  unfold mbind, script_bind, bind, eval, emit, when, ret, raise, lift at 1.
  destruct (Stats.calculate_stats _); [|by destruct g].
  destruct (st_button w _); [|by destruct g].
  rewrite app_on_submit_local by done. unfold lift.
  by destruct (StreamlitApp.on_submit _ _ _ _) as [[r s'] out].
Qed.

Lemma app_stat_block_local client w item g :
  App.USE_AI g = false →
  App.stat_block client w item g = lift (StreamlitApp.stat_block w item) g.
Proof.
  intros Hg. unfold App.stat_block, StreamlitApp.stat_block, when.
  destruct (st_button w _); [|by destruct g].
  by apply app_on_check_local.
Qed.

End Lifting.

Lemma app_run_without_judge (w : widgets) (s : session_state) :
  App.run None w s
  = match StreamlitApp.run_script w s with
    | (r, s', out) => (r, s', ModeBanner false :: out)
    end.
Proof.
  unfold App.run, App.run_script, StreamlitApp.run_script.
  unfold mbind, script_bind, bind, modify, get, emit.
  cbn [App.has_client App.set_USE_AI App.session App.USE_AI].
  rewrite (for_each_lift _ (StreamlitApp.scenario_block w));
    [|intros; by apply app_scenario_block_local|done].
  unfold lift. cbn [App.has_client App.set_USE_AI App.session App.USE_AI].
  destruct (for_each Stats.scenarios _ s) as [[[[]|] s1] out1]; [|done].
  rewrite (for_each_lift _ (StreamlitApp.stat_block w));
    [|intros; by apply app_stat_block_local|done].
  unfold lift. cbn [App.session App.USE_AI].
  destruct (for_each stat_types _ s1) as [[[[]|] s2] out2]; [|done].
  cbn [App.session]. rewrite !progress_block_eq.
  by case_bool_decide.
Qed.

Ltac feedback_page := do 2 eexists; split; [reflexivity|reflexivity].

Section Pages.
Implicit Types (w : widgets) (s : session_state).

Lemma scenario_loop_feedback w s :
  ∃ s' out,
    for_each Stats.scenarios (StreamlitApp.scenario_block w) s
    = (Ok (), s', out)
    ∧ filter (λ o, is_feedback o = true) out
      = match clicked w with
        | Some (submit _) => local_verdict w
        | _ => []
        end.
Proof.
  pose proof calculate_stats_scenarios as Hstats.
  unfold Stats.scenarios in *.
  apply Forall_cons in Hstats as [[st1 H1] Hstats].
  apply Forall_cons in Hstats as [[st2 H2] _].
  cbn [fst snd Stats.data] in H1, H2.
  unfold local_verdict. rewrite scenario_ids.
  cbn [for_each]. unfold StreamlitApp.scenario_block. cbn [fst snd Stats.data].
  rewrite H1, H2.
  rewrite (on_submit_eq 1 _ _ _ eq_refl), (on_submit_eq 2 _ _ _ eq_refl).
  destruct (clicked w) as [[scenario_id|stat_key]|] eqn:Hc.
  - rewrite !(st_button_clicked w _ _ Hc), !submit_decide.
    destruct (scenario_id_cases scenario_id) as [[-> | ->]|(-> & -> & ->)].
    + decide_buttons. run_script_steps.
      destruct (answer_given _ _); run_script_steps; feedback_page.
    + decide_buttons. run_script_steps.
      destruct (answer_given _ _); run_script_steps; feedback_page.
    + run_script_steps. feedback_page.
  - rewrite !(st_button_clicked w _ _ Hc).
    rewrite (proj2 (submit_check_decide 1 stat_key)),
      (proj2 (submit_check_decide 2 stat_key)).
    run_script_steps. feedback_page.
  - rewrite !(st_button_idle w _ Hc). run_script_steps. feedback_page.
Qed.

Lemma stat_loop_feedback w s :
  ∃ s' out,
    for_each stat_types (StreamlitApp.stat_block w) s = (Ok (), s', out)
    ∧ filter (λ o, is_feedback o = true) out
      = match clicked w with
        | Some (check _) => local_verdict w
        | _ => []
        end.
Proof.
  unfold local_verdict. rewrite stat_keys. unfold stat_types.
  cbn [for_each]. unfold StreamlitApp.stat_block. cbn [fst snd].
  destruct (stat_has_rule (py "mean")) as [r1 H1]; [compute_done|].
  destruct (stat_has_rule (py "median")) as [r2 H2]; [compute_done|].
  destruct (stat_has_rule (py "mode")) as [r3 H3]; [compute_done|].
  rewrite (on_check_eq _ _ _ H1), (on_check_eq _ _ _ H2),
    (on_check_eq _ _ _ H3).
  destruct (clicked w) as [[scenario_id|stat_key]|] eqn:Hc.
  - rewrite !(st_button_clicked w _ _ Hc).
    rewrite (proj1 (submit_check_decide scenario_id (py "mean"))),
      (proj1 (submit_check_decide scenario_id (py "median"))),
      (proj1 (submit_check_decide scenario_id (py "mode"))).
    run_script_steps. feedback_page.
  - rewrite !(st_button_clicked w _ _ Hc), !check_decide.
    destruct (stat_key_cases stat_key)
      as [[-> | [-> | ->]]|(-> & -> & -> & ->)].
    + decide_buttons. rewrite H1. run_script_steps.
      destruct (example_given _); run_script_steps; feedback_page.
    + decide_buttons. rewrite H2. run_script_steps.
      destruct (example_given _); run_script_steps; feedback_page.
    + decide_buttons. rewrite H3. run_script_steps.
      destruct (example_given _); run_script_steps; feedback_page.
    + run_script_steps. feedback_page.
  - rewrite !(st_button_idle w _ Hc). run_script_steps. feedback_page.
Qed.

Lemma progress_block_no_feedback {St : Type} (session : session_state)
    (s : St) :
  filter (λ o, is_feedback o = true) (page_of (progress_block session s))
  = [].
Proof.
  rewrite progress_block_eq. case_bool_decide; [|done].
  unfold progress_page, page_of. cbn [snd]. by destruct (_ =? _)%nat.
Qed.

End Pages.

(** X10: a run of the keyword page shows the verdict of the pressed
    button on its inputs and no other feedback: nothing when no button or
    an unknown one is pressed, and never more than one element. *)
Theorem keyword_page_shows_one_verdict (w : widgets) (s : session_state) :
  filter (λ o, is_feedback o = true) (page_of (StreamlitApp.run_script w s))
  = local_verdict w
  ∧ filter (λ o, is_feedback o = true) (page_of (App.run None w s))
    = local_verdict w
  ∧ (length (local_verdict w) ≤ 1)%nat.
Proof.
  assert (Hlocal : filter (λ o, is_feedback o = true)
                     (page_of (StreamlitApp.run_script w s))
                   = local_verdict w).
  { unfold StreamlitApp.run_script, mbind, script_bind, bind, get.
    destruct (scenario_loop_feedback w s) as (s1 & out1 & -> & Hf1).
    destruct (stat_loop_feedback w s1) as (s2 & out2 & -> & Hf2).
    pose proof (progress_block_no_feedback s2 s2) as Hf3.
    destruct (progress_block s2 s2) as [[r s3] out3].
    unfold page_of in *. cbn [snd] in *.
    rewrite !filter_app, Hf1, Hf2, Hf3, app_nil_l, app_nil_r.
    destruct (clicked w) as [[?|?]|] eqn:Hc; rewrite ?app_nil_r;
      [done|done|].
    unfold local_verdict. by rewrite Hc. }
  split; [done|]. split.
  - rewrite app_run_without_judge.
    destruct (StreamlitApp.run_script w s) as [[r s'] out].
    unfold page_of in *. cbn [snd] in *. by rewrite filter_cons.
  - unfold local_verdict.
    destruct (clicked w) as [[?|?]|]; repeat case_match; simpl; lia.
Qed.

(** X9: without a client, a run of [app.py] is the run of
    [streamlit_app.py] with the simulation banner put first, and a
    session of such runs ends in the same session state. *)
Theorem page_without_judge_is_keyword_page
    (ws : list widgets) (w : widgets) (s : session_state) :
  App.run None w s
  = match StreamlitApp.run_script w s with
    | (r, s', out) => (r, s', ModeBanner false :: out)
    end
  ∧ session_after (App.run None) ws
    = session_after StreamlitApp.run_script ws.
Proof.
  split; [apply app_run_without_judge|].
  unfold session_after. generalize fresh_session.
  induction ws as [|w' ws IH]; intros s0; [done|].
  cbn [fold_left]. rewrite IH. f_equal.
  rewrite app_run_without_judge.
  by destruct (StreamlitApp.run_script w' s0) as [[r s'] out].
Qed.

(** X11: with a client and [USE_AI] on, a valid submission shows the
    judge's text under the marker found in it and leaves [USE_AI] on; when
    the call raises, it shows the error notice followed by the verdict of
    the keyword rules and turns [USE_AI] off.  Either way the activity is
    marked.  The same holds for a checked example. *)
Theorem remote_judge_answers_or_falls_back
    (c : App.judge) (scenario_id : Z) (key : answer_key)
    (stat_key : pystr) (rule : rule)
    (best_stat reason example_text : pystr) (g : App.globals) :
  dict_get correct_answers scenario_id = Some key →
  dict_get analysis_rules stat_key = Some rule →
  answer_given best_stat reason = true →
  example_given example_text = true →
  App.USE_AI g = true →
  App.on_submit (Some c) scenario_id best_stat reason g
  = match App.judge_answer c scenario_id best_stat reason with
    | Some ai_feedback =>
        (Ok (),
         {| App.session := set_answer scenario_id (App.session g);
            App.USE_AI := true |},
         [AnswerRemote scenario_id (App.answer_marker ai_feedback)
            ai_feedback])
    | None =>
        (Ok (),
         {| App.session := set_answer scenario_id (App.session g);
            App.USE_AI := false |},
         [RemoteError;
          AnswerFeedback scenario_id (answer_outcome key best_stat reason)])
    end
  ∧ App.on_check (Some c) stat_key example_text g
    = match App.judge_example c stat_key example_text with
      | Some ai_response =>
          (Ok (),
           {| App.session := set_example stat_key (App.session g);
              App.USE_AI := true |},
           [ExampleRemote stat_key (App.example_marker ai_response)
              ai_response])
      | None =>
          (Ok (),
           {| App.session := set_example stat_key (App.session g);
              App.USE_AI := false |},
           [RemoteError;
            ExampleFeedback stat_key (example_appraisal rule example_text)])
      end.
Proof.
  intros Hkey Hrule Ha He. destruct g as [s u]. cbn [App.USE_AI]. intros ->.
  unfold App.on_submit, App.on_check. rewrite Ha, He. split.
  - app_steps.
    destruct (App.judge_answer c scenario_id best_stat reason);
      app_steps; rewrite ?Hkey; reflexivity.
  - app_steps.
    destruct (App.judge_example c stat_key example_text);
      app_steps; rewrite ?Hrule; reflexivity.
Qed.

Lemma remote_judge_answers_or_falls_back_witness :
  App.on_submit
    (Some (App.mk_judge (λ _ _ _, None) (λ _ _, Some (py "✅ 훌륭합니다!"))))
    1 (py "중앙값") (py "이상치")
    {| App.session := fresh_session; App.USE_AI := true |}
  = (Ok (),
     {| App.session := set_answer 1 fresh_session; App.USE_AI := false |},
     [RemoteError; AnswerFeedback 1 Correct])
  ∧ App.on_check
      (Some (App.mk_judge (λ _ _ _, None)
               (λ _ _, Some (py "✅ 훌륭합니다!"))))
      (py "mode") (py "인기") 
      {| App.session := fresh_session; App.USE_AI := true |}
    = (Ok (),
       {| App.session := set_example (py "mode") fresh_session;
          App.USE_AI := true |},
       [ExampleRemote (py "mode") Appropriate (py "✅ 훌륭합니다!")]).
Proof.
  destruct (stat_has_rule (py "mode")) as [rule Hrule]; [compute_done|].
  destruct (scenario_has_key 1) as [key Hkey]; [compute_done|].
  pose proof (remote_judge_answers_or_falls_back
                (App.mk_judge (λ _ _ _, None)
                   (λ _ _, Some (py "✅ 훌륭합니다!")))
                1 key (py "mode") rule (py "중앙값") (py "이상치")
                (py "인기")
                {| App.session := fresh_session; App.USE_AI := true |}
                Hkey Hrule) as [Hs Hc];
    [vm_compute; reflexivity..|].
  rewrite Hs, Hc. cbn [App.judge_answer App.judge_example].
  split; [|by vm_compute].
  do 2 f_equal. vm_compute in Hkey. injection Hkey as <-.
  by vm_compute.
Defined.

Section Keys.

Lemma mark_keys b s :
  (∀ scenario_id, b = Some (submit scenario_id) →
                  scenario_id ∈ Stats.scenarios.*1) →
  (∀ stat_key, b = Some (check stat_key) → stat_key ∈ stat_types.*1) →
  ((∀ k v, answers_submitted s !! k = Some v →
           v = true ∧ k ∈ Stats.scenarios.*1)
   ∧ (∀ k v, ai_examples_checked s !! k = Some v →
             v = true ∧ k ∈ stat_types.*1)) →
  (∀ k v, answers_submitted (mark b s) !! k = Some v →
          v = true ∧ k ∈ Stats.scenarios.*1)
  ∧ (∀ k v, ai_examples_checked (mark b s) !! k = Some v →
            v = true ∧ k ∈ stat_types.*1).
Proof.
  intros Hsub Hchk [Ha He].
  destruct b as [[scenario_id|stat_key]|]; [| |done];
    cbn [mark set_answer set_example answers_submitted ai_examples_checked].
  - split; [|done]. intros k v. rewrite lookup_insert.
    case_decide as Hk; [|by apply Ha].
    intros [= <-]. subst k. split; [done|]. by apply Hsub.
  - split; [done|]. intros k v. rewrite lookup_insert.
    case_decide as Hk; [|by apply He].
    intros [= <-]. subst k. split; [done|]. by apply Hchk.
Qed.

End Keys.

(** X14: in every reachable session state of either page, the two
    dictionaries hold no other value than [True] and no other key than
    the scenario ids and the statistic keys of the page. *)
Theorem session_holds_page_keys_only
    (page : widgets → script session_state unit) (s : session_state) :
  is_page page → reachable page s →
  (∀ k v, answers_submitted s !! k = Some v →
          v = true ∧ k ∈ Stats.scenarios.*1)
  ∧ (∀ k v, ai_examples_checked s !! k = Some v →
            v = true ∧ k ∈ stat_types.*1).
Proof.
  intros Hpage Hreach. pose proof (is_page_state page Hpage) as Hstate.
  induction Hreach as [|w s _ IH].
  - split; intros k v; unfold fresh_session;
      cbn [answers_submitted ai_examples_checked]; by rewrite lookup_empty.
  - rewrite Hstate. apply mark_keys; [| |done].
    + apply completes_scenario_known.
    + apply completes_stat_known.
Qed.

Lemma session_holds_page_keys_only_witness :
  true = true ∧ 2 ∈ Stats.scenarios.*1.
Proof.
  apply (proj1 (session_holds_page_keys_only (App.run None) _
                  (remote_page None)
                  (reachable_run _ (press (submit 2)) _
                     (reachable_fresh _))) 2 true).
  vm_compute. reflexivity.
Defined.

(** ** The page with a judge *)

Ltac judge_page :=
  do 2 eexists; split; [reflexivity|split; [reflexivity|done]].

Ltac stat_judge_page := do 2 eexists; split; [reflexivity|done].

Section JudgePages.
Implicit Types (w : widgets) (s : session_state) (c : App.judge).

Lemma app_scenario_loop_feedback c w s :
  ∃ g' out,
    for_each Stats.scenarios (App.scenario_block (Some c) w)
      {| App.session := s; App.USE_AI := true |}
    = (Ok (), g', out)
    ∧ filter (λ o, is_feedback o = true) out
      = match clicked w with
        | Some (submit _) => remote_verdict c w
        | _ => []
        end
    ∧ match clicked w with
      | Some (submit _) => True
      | _ => g' = {| App.session := s; App.USE_AI := true |}
      end.
Proof.
  pose proof calculate_stats_scenarios as Hstats.
  unfold Stats.scenarios in *.
  apply Forall_cons in Hstats as [[st1 H1] Hstats].
  apply Forall_cons in Hstats as [[st2 H2] _].
  cbn [fst snd Stats.data] in H1, H2.
  destruct (scenario_has_key 1) as [k1 Hk1]; [compute_done|].
  destruct (scenario_has_key 2) as [k2 Hk2]; [compute_done|].
  unfold remote_verdict. rewrite scenario_ids.
  cbn [for_each]. unfold App.scenario_block, App.on_submit.
  cbn [fst snd Stats.data]. rewrite H1, H2.
  destruct (clicked w) as [[scenario_id|stat_key]|] eqn:Hc.
  - rewrite !(st_button_clicked w _ _ Hc), !submit_decide.
    destruct (scenario_id_cases scenario_id) as [[-> | ->]|(-> & -> & ->)].
    + decide_buttons. rewrite Hk1. app_steps.
      destruct (answer_given _ _); app_steps; [|judge_page].
      destruct (App.judge_answer c 1 _ _); app_steps; rewrite ?Hk1;
        judge_page.
    + decide_buttons. rewrite Hk2. app_steps.
      destruct (answer_given _ _); app_steps; [|judge_page].
      destruct (App.judge_answer c 2 _ _); app_steps; rewrite ?Hk2;
        judge_page.
    + app_steps. judge_page.
  - rewrite !(st_button_clicked w _ _ Hc).
    rewrite (proj2 (submit_check_decide 1 stat_key)),
      (proj2 (submit_check_decide 2 stat_key)).
    app_steps. judge_page.
  - rewrite !(st_button_idle w _ Hc). app_steps. judge_page.
Qed.

Lemma app_stat_loop_feedback c w g :
  ∃ g' out,
    for_each stat_types (App.stat_block (Some c) w) g = (Ok (), g', out)
    ∧ match clicked w with
      | Some (check _) =>
          App.USE_AI g = true →
          filter (λ o, is_feedback o = true) out = remote_verdict c w
      | _ => filter (λ o, is_feedback o = true) out = []
      end.
Proof.
  unfold remote_verdict. rewrite stat_keys. unfold stat_types.
  cbn [for_each]. unfold App.stat_block, App.on_check. cbn [fst snd].
  destruct (stat_has_rule (py "mean")) as [r1 H1]; [compute_done|].
  destruct (stat_has_rule (py "median")) as [r2 H2]; [compute_done|].
  destruct (stat_has_rule (py "mode")) as [r3 H3]; [compute_done|].
  destruct g as [s u].
  destruct (clicked w) as [[scenario_id|stat_key]|] eqn:Hc.
  - rewrite !(st_button_clicked w _ _ Hc).
    rewrite (proj1 (submit_check_decide scenario_id (py "mean"))),
      (proj1 (submit_check_decide scenario_id (py "median"))),
      (proj1 (submit_check_decide scenario_id (py "mode"))).
    app_steps. stat_judge_page.
  - rewrite !(st_button_clicked w _ _ Hc), !check_decide.
    destruct (stat_key_cases stat_key)
      as [[-> | [-> | ->]]|(-> & -> & -> & ->)].
    + decide_buttons. rewrite H1. app_steps.
      destruct (example_given _); app_steps; [|stat_judge_page].
      destruct u; app_steps; rewrite ?H1; [|stat_judge_page].
      destruct (App.judge_example c _ _); app_steps; rewrite ?H1;
        stat_judge_page.
    + decide_buttons. rewrite H2. app_steps.
      destruct (example_given _); app_steps; [|stat_judge_page].
      destruct u; app_steps; rewrite ?H2; [|stat_judge_page].
      destruct (App.judge_example c _ _); app_steps; rewrite ?H2;
        stat_judge_page.
    + decide_buttons. rewrite H3. app_steps.
      destruct (example_given _); app_steps; [|stat_judge_page].
      destruct u; app_steps; rewrite ?H3; [|stat_judge_page].
      destruct (App.judge_example c _ _); app_steps; rewrite ?H3;
        stat_judge_page.
    + app_steps. stat_judge_page.
  - rewrite !(st_button_idle w _ Hc). app_steps. stat_judge_page.
Qed.

End JudgePages.

(** X12: with a client, every run opens with the banner of the AI mode,
    whatever the runs before it did, and shows as feedback what the judge
    answers to the pressed button, or the error notice and the verdict of
    the keyword rules when the call raises: at most two elements. *)
Theorem judge_page_shows_judge_verdict
    (c : App.judge) (w : widgets) (s : session_state) :
  filter (λ o, is_feedback o = true) (page_of (App.run (Some c) w s))
  = remote_verdict c w
  ∧ head (page_of (App.run (Some c) w s)) = Some (ModeBanner true)
  ∧ (length (remote_verdict c w) ≤ 2)%nat.
Proof.
  assert (Hrun : ∃ out,
             page_of (App.run (Some c) w s) = ModeBanner true :: out
             ∧ filter (λ o, is_feedback o = true) out = remote_verdict c w).
  { unfold App.run, App.run_script.
    unfold mbind, script_bind, bind, modify, get, emit.
    unfold App.set_USE_AI. cbn [App.has_client App.session App.USE_AI].
    destruct (app_scenario_loop_feedback c w s)
      as (g1 & out1 & -> & Hf1 & Hg1).
    destruct (app_stat_loop_feedback c w g1) as (g2 & out2 & -> & Hf2).
    pose proof (progress_block_no_feedback (App.session g2) g2) as Hf3.
    destruct (progress_block (App.session g2) g2) as [[r g3] out3].
    unfold page_of in *. cbn [snd] in *.
    eexists. split; [reflexivity|].
    rewrite !filter_app, Hf1, Hf3, app_nil_r.
    destruct (clicked w) as [[?|?]|] eqn:Hc.
    - by rewrite Hf2, app_nil_r.
    - rewrite Hf2 by (by subst g1). done.
    - rewrite Hf2. unfold remote_verdict. by rewrite Hc. }
  destruct Hrun as (out & Hpage & Hfilter). rewrite Hpage. split; [|split].
  - by rewrite filter_cons.
  - done.
  - unfold remote_verdict.
    destruct (clicked w) as [[?|?]|]; repeat case_match; simpl; lia.
Qed.

Section Markers.
Implicit Types (text : pystr).

Lemma contains_false sub text :
  contains sub text = false ↔ ¬ ∃ pre post, text = pre ++ sub ++ post.
Proof. by rewrite <- contains_spec, not_true_iff_false. Qed.

End Markers.

(** X13: the judge's text counts as correct (as appropriate) exactly
    when the first marker occurs somewhere in it, and as partially correct
    (partially appropriate) exactly when the first marker does not occur
    and the second one does. *)
Theorem judge_marker_found_anywhere (text : pystr) :
  (App.answer_marker text = Correct
   ↔ ∃ pre post, text = pre ++ py "✅ 훌륭합니다!" ++ post)
  ∧ (App.answer_marker text = PartiallyCorrect
     ↔ (¬ ∃ pre post, text = pre ++ py "✅ 훌륭합니다!" ++ post)
       ∧ ∃ pre post, text = pre ++ py "💭 좋은 시도입니다!" ++ post)
  ∧ (App.example_marker text = Appropriate
     ↔ ∃ pre post, text = pre ++ py "✅ 훌륭합니다!" ++ post)
  ∧ (App.example_marker text = PartiallyAppropriate
     ↔ (¬ ∃ pre post, text = pre ++ py "✅ 훌륭합니다!" ++ post)
       ∧ ∃ pre post, text = pre ++ py "👍 좋습니다!" ++ post).
Proof.
  unfold App.answer_marker, App.example_marker.
  rewrite <- !contains_false, <- !contains_spec.
  destruct (contains (py "✅ 훌륭합니다!") text);
    destruct (contains (py "💭 좋은 시도입니다!") text);
    destruct (contains (py "👍 좋습니다!") text);
    intuition congruence.
Qed.
